(* Shallow embedding of the two Anchor programs of lutrii:
   programs/lutrii-recurring/src/lib.rs        (subscription billing)
   programs/lutrii-merchant-registry/src/lib.rs (merchant trust engine)

   Machine integers are Z with their checked / saturating operations written
   out.  Plain `+` / `-` on i64 is modelled as panicking on overflow (the
   Anchor workspace profile builds programs with overflow checks); a panic
   aborts the instruction like any other error.

   Each instruction handler is written in a small state/error monad over the
   whole on-chain world: it mutates a working copy, field by field, in the
   order of the Rust code, and may fail at any point.  The Solana runtime
   (`run_instruction`) keeps the working copy only when the handler returns
   Ok; on Err every account (including token balances moved by CPIs) is left
   as it was before the instruction. *)

From Stdlib Require Import ZArith Bool List String Lia.
Import ListNotations.
Open Scope Z_scope.

(* ------------------------------------------------------------------ *)
(* Machine integers                                                     *)
(* ------------------------------------------------------------------ *)

Definition U16_MAX : Z := 2 ^ 16 - 1.
Definition U32_MAX : Z := 2 ^ 32 - 1.
Definition U64_MAX : Z := 2 ^ 64 - 1.
Definition U128_MAX : Z := 2 ^ 128 - 1.
Definition I32_MIN : Z := - 2 ^ 31.
Definition I32_MAX : Z := 2 ^ 31 - 1.
Definition I64_MIN : Z := - 2 ^ 63.
Definition I64_MAX : Z := 2 ^ 63 - 1.

Definition in_range (lo hi x : Z) : bool := (lo <=? x) && (x <=? hi).

Definition checked (lo hi x : Z) : option Z :=
  if in_range lo hi x then Some x else None.

(* u64::checked_add, u64::checked_sub, u32::checked_add, u128::checked_mul *)
Definition u64_checked_add (a b : Z) : option Z := checked 0 U64_MAX (a + b).
Definition u64_checked_sub (a b : Z) : option Z := checked 0 U64_MAX (a - b).
Definition u32_checked_add (a b : Z) : option Z := checked 0 U32_MAX (a + b).
Definition u128_checked_mul (a b : Z) : option Z := checked 0 U128_MAX (a * b).
(* u128::checked_div: None only for a zero divisor *)
Definition u_checked_div (a b : Z) : option Z := if b =? 0 then None else Some (a / b).
(* u64::try_from(u128) *)
Definition u64_try_from (a : Z) : option Z := checked 0 U64_MAX a.
(* u64::saturating_sub *)
Definition u64_saturating_sub (a b : Z) : Z := Z.max 0 (a - b).
(* i32::checked_add, i32::saturating_sub *)
Definition i32_checked_add (a b : Z) : option Z := checked I32_MIN I32_MAX (a + b).
Definition i32_saturating_sub (a b : Z) : Z := Z.max I32_MIN (Z.min I32_MAX (a - b)).
(* plain i64 `+` and `-` (panic on overflow) *)
Definition i64_add (a b : Z) : option Z := checked I64_MIN I64_MAX (a + b).
Definition i64_sub (a b : Z) : option Z := checked I64_MIN I64_MAX (a - b).
(* u64::abs_diff *)
Definition u64_abs_diff (a b : Z) : Z := Z.abs (a - b).

(* ------------------------------------------------------------------ *)
(* Error codes                                                          *)
(* ------------------------------------------------------------------ *)

Module Recurring.
(* `ErrorCode` of lutrii-recurring/src/lib.rs *)
Inductive ErrorCode :=
| SystemPaused | SubscriptionInactive | SubscriptionPaused | PaymentNotDue
| ExceedsTransactionCap | ExceedsLifetimeCap | VelocityExceeded
| PriceVarianceExceeded | AlreadyPaused | NotPaused | InsufficientAmount
| Overflow | FrequencyTooShort | FrequencyTooLong | InvalidMerchantName
| AmountTooLow | FeeTooLow | FeeTooHigh | InvalidTokenAccountOwner
| InvalidMint | InvalidTokenAccount | SubscriptionStillActive
| UnauthorizedUser | UnauthorizedAdmin.
End Recurring.

Module Registry.
(* `ErrorCode` of lutrii-merchant-registry/src/lib.rs *)
Inductive ErrorCode :=
| InvalidBusinessName | InvalidWebhookUrl | InvalidCategory
| MustBeVerifiedFirst | InvalidRating | InvalidComment | Overflow
| UnauthorizedAdmin | UnauthorizedMerchantOwner | UnauthorizedCpiCaller
| CannotManuallySetCommunityTier | NoActiveSubscription | NoPaymentHistory
| InsufficientPaymentHistory | InsufficientTotalPaid | SubscriptionTooNew
| InvalidSuspensionReason | MustBeCalledViaCpi.
End Registry.

(* Errors raised by the framework and the token program. *)
Inductive AnchorError :=
| AccountNotInitialized   (* an `Account<..>` that does not exist *)
| AccountAlreadyInUse     (* `init` on an existing PDA *)
| AccountOwnedByWrongProgram  (* an `Account<T>` not owned by `T::owner()` *)
| ConstraintAddress.      (* `address = ...` constraint *)

Inductive TokenError := InsufficientFunds | OwnerMismatch | Overflow.

Inductive Error :=
| RecurringErr (e : Recurring.ErrorCode)
| RegistryErr (e : Registry.ErrorCode)
| AnchorErr (e : AnchorError)
| TokenErr (e : TokenError)
| Panic.

(* ------------------------------------------------------------------ *)
(* Accounts                                                             *)
(* ------------------------------------------------------------------ *)

(* Public keys are Z.  Program-derived addresses are named by their seeds. *)
Definition Pubkey := Z.

(* Who signs a token transfer: a wallet, or the subscription PDA
   [b"subscription", user, merchant] acting as delegate. *)
Inductive Authority :=
| Wallet (k : Pubkey)
| SubscriptionPda (user merchant : Pubkey).

Definition authority_eqb (a b : Authority) : bool :=
  match a, b with
  | Wallet x, Wallet y => Z.eqb x y
  | SubscriptionPda u m, SubscriptionPda u' m' => Z.eqb u u' && Z.eqb m m'
  | _, _ => false
  end.

Record TokenAccount := {
  tok_owner : Pubkey;
  tok_amount : Z;
  tok_delegate : option Authority;
  tok_delegated_amount : Z;
}.

Record PlatformState := {
  authority : Pubkey;
  daily_volume_limit : Z;
  total_volume_24h : Z;
  last_volume_reset : Z;
  failed_tx_count : Z;
  emergency_pause : bool;
  fee_basis_points : Z;
  min_fee : Z;
  max_fee : Z;
  total_subscriptions : Z;
  total_transactions : Z;
}.

Record Subscription := {
  user : Pubkey;
  merchant : Pubkey;
  user_token_account : Pubkey;
  merchant_token_account : Pubkey;
  amount : Z;
  original_amount : Z;
  frequency_seconds : Z;
  last_payment : Z;
  next_payment : Z;
  total_paid : Z;
  payment_count : Z;
  is_active : bool;
  is_paused : bool;
  max_per_transaction : Z;
  lifetime_cap : Z;
  merchant_name : string;
  created_at : Z;
}.

Inductive VerificationTier := Unverified | Verified | Community | Suspended.

Definition tier_eqb (a b : VerificationTier) : bool :=
  match a, b with
  | Unverified, Unverified | Verified, Verified
  | Community, Community | Suspended, Suspended => true
  | _, _ => false
  end.

Record RegistryState := {
  reg_authority : Pubkey;
  total_merchants : Z;
  verified_merchants : Z;
  premium_badge_price : Z;
}.

Record Merchant := {
  owner : Pubkey;
  business_name : string;
  webhook_url : string;
  category : string;
  verification_tier : VerificationTier;
  community_score : Z;
  m_total_transactions : Z;
  total_volume : Z;
  failed_transactions : Z;
  premium_badge_active : bool;
  premium_badge_expires : Z;
  m_created_at : Z;
  last_updated : Z;
}.

Record Review := {
  rv_merchant : Pubkey;
  rv_reviewer : Pubkey;
  rating : Z;
  comment : string;
  timestamp : Z;
}.

(* The accounts of both programs.  Subscriptions are the PDAs
   [b"subscription", user, merchant]; merchants the PDAs [b"merchant", owner];
   reviews the PDAs [b"review", merchant, reviewer], where the merchant PDA
   is named by its owner. *)
Record World := {
  platform : option PlatformState;
  subs : Pubkey -> Pubkey -> option Subscription;
  tokens : Pubkey -> TokenAccount;
  registry : option RegistryState;
  merchants : Pubkey -> option Merchant;
  reviews : Pubkey -> Pubkey -> option Review;
}.

Definition upd1 {A} (f : Pubkey -> A) (k : Pubkey) (v : A) : Pubkey -> A :=
  fun k' => if Z.eqb k' k then v else f k'.

Definition upd2 {A} (f : Pubkey -> Pubkey -> A) (k1 k2 : Pubkey) (v : A)
  : Pubkey -> Pubkey -> A :=
  fun a b => if Z.eqb a k1 && Z.eqb b k2 then v else f a b.

Definition with_platform (w : World) (p : option PlatformState) : World :=
  {| platform := p; subs := subs w; tokens := tokens w; registry := registry w;
     merchants := merchants w; reviews := reviews w |}.
Definition with_sub (w : World) (u m : Pubkey) (s : option Subscription) : World :=
  {| platform := platform w; subs := upd2 (subs w) u m s; tokens := tokens w;
     registry := registry w; merchants := merchants w; reviews := reviews w |}.
Definition with_token (w : World) (k : Pubkey) (t : TokenAccount) : World :=
  {| platform := platform w; subs := subs w; tokens := upd1 (tokens w) k t;
     registry := registry w; merchants := merchants w; reviews := reviews w |}.
Definition with_registry (w : World) (r : option RegistryState) : World :=
  {| platform := platform w; subs := subs w; tokens := tokens w; registry := r;
     merchants := merchants w; reviews := reviews w |}.
Definition with_merchant (w : World) (o : Pubkey) (m : option Merchant) : World :=
  {| platform := platform w; subs := subs w; tokens := tokens w;
     registry := registry w; merchants := upd1 (merchants w) o m;
     reviews := reviews w |}.
Definition with_review (w : World) (m r : Pubkey) (v : option Review) : World :=
  {| platform := platform w; subs := subs w; tokens := tokens w;
     registry := registry w; merchants := merchants w;
     reviews := upd2 (reviews w) m r v |}.

(* ------------------------------------------------------------------ *)
(* The instruction monad: a working copy of the world and a Result      *)
(* ------------------------------------------------------------------ *)

Inductive res (A : Type) := Ok (a : A) | Err (e : Error).
Arguments Ok {A} a.
Arguments Err {A} e.

Definition M (A : Type) := World -> World * res A.

Definition ret {A} (a : A) : M A := fun w => (w, Ok a).
Definition bind {A B} (m : M A) (k : A -> M B) : M B :=
  fun w => match m w with
           | (w', Ok a) => k a w'
           | (w', Err e) => (w', Err e)
           end.
Definition throw {A} (e : Error) : M A := fun w => (w, Err e).
Definition get : M World := fun w => (w, Ok w).
Definition modify (f : World -> World) : M unit := fun w => (f w, Ok tt).

Notation "'let*' x := m 'in' k" := (bind m (fun x => k))
  (at level 61, x pattern, m at next level, right associativity).
Notation "m ;; k" := (bind m (fun _ => k)) (at level 61, right associativity).

(* require!(cond, err) *)
Definition require (b : bool) (e : Error) : M unit :=
  if b then ret tt else throw e.
(* option.ok_or(err)? *)
Definition ok_or {A} (o : option A) (e : Error) : M A :=
  match o with Some a => ret a | None => throw e end.
Definition lift {A} (r : res A) : M A :=
  match r with Ok a => ret a | Err e => throw e end.

Definition rerr (e : Recurring.ErrorCode) : Error := RecurringErr e.
Definition gerr (e : Registry.ErrorCode) : Error := RegistryErr e.

(* Account loaders: an `Account<..>` must exist. *)
Definition load_platform : M PlatformState :=
  fun w => match platform w with
           | Some p => (w, Ok p)
           | None => (w, Err (AnchorErr AccountNotInitialized))
           end.
Definition store_platform (p : PlatformState) : M unit :=
  modify (fun w => with_platform w (Some p)).
Definition load_sub (u m : Pubkey) : M Subscription :=
  fun w => match subs w u m with
           | Some s => (w, Ok s)
           | None => (w, Err (AnchorErr AccountNotInitialized))
           end.
Definition store_sub (u m : Pubkey) (s : Subscription) : M unit :=
  modify (fun w => with_sub w u m (Some s)).
Definition load_registry : M RegistryState :=
  fun w => match registry w with
           | Some r => (w, Ok r)
           | None => (w, Err (AnchorErr AccountNotInitialized))
           end.
Definition store_registry (r : RegistryState) : M unit :=
  modify (fun w => with_registry w (Some r)).
Definition load_merchant (o : Pubkey) : M Merchant :=
  fun w => match merchants w o with
           | Some m => (w, Ok m)
           | None => (w, Err (AnchorErr AccountNotInitialized))
           end.
Definition store_merchant (o : Pubkey) (m : Merchant) : M unit :=
  modify (fun w => with_merchant w o (Some m)).

(* ------------------------------------------------------------------ *)
(* Token program CPIs (amounts only; mint and decimals are not checked *)
(* here)                                                                *)
(* ------------------------------------------------------------------ *)

Definition with_tokens (w : World) (t : Pubkey -> TokenAccount) : World :=
  {| platform := platform w; subs := subs w; tokens := t; registry := registry w;
     merchants := merchants w; reviews := reviews w |}.

(* Token program state transitions on the token accounts. *)

(* transfer_checked, as the token program's process_transfer: the source
   balance is checked first; then the authority: the approved delegate
   spends from its allowance (and is cleared when the allowance reaches 0),
   any other signer must be the owner; a transfer to the same account
   returns there, changing nothing; the destination's balance is a checked
   u64 addition. *)
Definition spl_transfer (toks : Pubkey -> TokenAccount) (from to_ : Pubkey)
  (auth : Authority) (amt : Z) : res (Pubkey -> TokenAccount) :=
  let src := toks from in
  let self_transfer := Z.eqb from to_ in
  let by_owner :=
    if authority_eqb auth (Wallet (tok_owner src)) then Ok src
    else Err (TokenErr OwnerMismatch) in
  if tok_amount src <? amt then Err (TokenErr InsufficientFunds)
  else
    let authorized :=
      match tok_delegate src with
      | Some d =>
          if authority_eqb auth d then
            if tok_delegated_amount src <? amt then Err (TokenErr InsufficientFunds)
            else if self_transfer then Ok src
            else
              let rest := tok_delegated_amount src - amt in
              Ok {| tok_owner := tok_owner src; tok_amount := tok_amount src;
                    tok_delegate := if rest =? 0 then None else Some d;
                    tok_delegated_amount := rest |}
          else by_owner
      | None => by_owner
      end in
    match authorized with
    | Err e => Err e
    | Ok src1 =>
        if self_transfer then Ok toks
        else
          let toks1 := upd1 toks from
                         {| tok_owner := tok_owner src1;
                            tok_amount := tok_amount src1 - amt;
                            tok_delegate := tok_delegate src1;
                            tok_delegated_amount := tok_delegated_amount src1 |} in
          let dst := toks1 to_ in
          match u64_checked_add (tok_amount dst) amt with
          | None => Err (TokenErr Overflow)
          | Some v => Ok (upd1 toks1 to_ {| tok_owner := tok_owner dst;
                                            tok_amount := v;
                                            tok_delegate := tok_delegate dst;
                                            tok_delegated_amount :=
                                              tok_delegated_amount dst |})
          end
    end.

(* approve_checked: the owner sets the delegate and its allowance. *)
Definition spl_approve (toks : Pubkey -> TokenAccount) (acct : Pubkey)
  (delegate : Authority) (owner_ : Pubkey) (amt : Z) : res (Pubkey -> TokenAccount) :=
  let t := toks acct in
  if negb (Z.eqb (tok_owner t) owner_) then Err (TokenErr OwnerMismatch)
  else Ok (upd1 toks acct {| tok_owner := tok_owner t; tok_amount := tok_amount t;
                             tok_delegate := Some delegate;
                             tok_delegated_amount := amt |}).

(* revoke: the owner clears the delegate. *)
Definition spl_revoke (toks : Pubkey -> TokenAccount) (acct owner_ : Pubkey)
  : res (Pubkey -> TokenAccount) :=
  let t := toks acct in
  if negb (Z.eqb (tok_owner t) owner_) then Err (TokenErr OwnerMismatch)
  else Ok (upd1 toks acct {| tok_owner := tok_owner t; tok_amount := tok_amount t;
                             tok_delegate := None; tok_delegated_amount := 0 |}).

(* The CPIs, applied to the world's token accounts. *)
Definition token_cpi (f : (Pubkey -> TokenAccount) -> res (Pubkey -> TokenAccount))
  : M unit :=
  fun w => match f (tokens w) with
           | Ok t => (with_tokens w t, Ok tt)
           | Err e => (w, Err e)
           end.
Definition transfer_checked (from to_ : Pubkey) (auth : Authority) (amt : Z) : M unit :=
  token_cpi (fun t => spl_transfer t from to_ auth amt).
Definition approve_checked (acct : Pubkey) (delegate : Authority) (owner_ : Pubkey)
  (amt : Z) : M unit :=
  token_cpi (fun t => spl_approve t acct delegate owner_ amt).
Definition revoke (acct owner_ : Pubkey) : M unit :=
  token_cpi (fun t => spl_revoke t acct owner_).

(* ------------------------------------------------------------------ *)
(* calculate_fee (lutrii-recurring/src/lib.rs)                          *)
(* ------------------------------------------------------------------ *)

Definition BASIS_POINTS_DIVISOR : Z := 10000.

Definition calculate_fee (amount_ basis_points min_fee_ max_fee_ : Z) : res Z :=
  match u128_checked_mul amount_ basis_points with
  | None => Err (rerr Recurring.Overflow)
  | Some p =>
      match u_checked_div p BASIS_POINTS_DIVISOR with
      | None => Err (rerr Recurring.Overflow)
      | Some fee =>
          match u64_try_from fee with
          | None => Err (rerr Recurring.Overflow)
          | Some fee_u64 => Ok (Z.min (Z.max fee_u64 min_fee_) max_fee_)
          end
      end
  end.

(* ------------------------------------------------------------------ *)
(* lutrii-recurring: field assignments                                  *)
(* ------------------------------------------------------------------ *)

Definition MIN_FEE_BASIS_POINTS : Z := 1.
Definition MAX_FEE_BASIS_POINTS : Z := 500.
Definition SECONDS_PER_DAY : Z := 86400.
Definition MIN_FREQUENCY_SECONDS : Z := 3600.
Definition MAX_FREQUENCY_SECONDS : Z := 31536000.
Definition MAX_MERCHANT_NAME_LEN : nat := 32.

Definition mk_platform (p : PlatformState) (vol reset failed : Z) (pause : bool)
  (tsubs ttx : Z) : PlatformState :=
  {| authority := authority p; daily_volume_limit := daily_volume_limit p;
     total_volume_24h := vol; last_volume_reset := reset;
     failed_tx_count := failed; emergency_pause := pause;
     fee_basis_points := fee_basis_points p; min_fee := min_fee p;
     max_fee := max_fee p; total_subscriptions := tsubs;
     total_transactions := ttx |}.

(* platform.total_volume_24h = vol; platform.last_volume_reset = reset; *)
Definition set_volume (p : PlatformState) (vol reset : Z) : PlatformState :=
  mk_platform p vol reset (failed_tx_count p) (emergency_pause p)
    (total_subscriptions p) (total_transactions p).
Definition set_emergency_pause (p : PlatformState) (b : bool) : PlatformState :=
  mk_platform p (total_volume_24h p) (last_volume_reset p) (failed_tx_count p) b
    (total_subscriptions p) (total_transactions p).
Definition set_failed_tx_count (p : PlatformState) (n : Z) : PlatformState :=
  mk_platform p (total_volume_24h p) (last_volume_reset p) n (emergency_pause p)
    (total_subscriptions p) (total_transactions p).
Definition set_total_subscriptions (p : PlatformState) (n : Z) : PlatformState :=
  mk_platform p (total_volume_24h p) (last_volume_reset p) (failed_tx_count p)
    (emergency_pause p) n (total_transactions p).
Definition set_total_transactions (p : PlatformState) (n : Z) : PlatformState :=
  mk_platform p (total_volume_24h p) (last_volume_reset p) (failed_tx_count p)
    (emergency_pause p) (total_subscriptions p) n.

Definition mk_sub (s : Subscription) (last next tp pc : Z) (active paused : bool)
  (maxtx cap : Z) : Subscription :=
  {| user := user s; merchant := merchant s;
     user_token_account := user_token_account s;
     merchant_token_account := merchant_token_account s;
     amount := amount s; original_amount := original_amount s;
     frequency_seconds := frequency_seconds s; last_payment := last;
     next_payment := next; total_paid := tp; payment_count := pc;
     is_active := active; is_paused := paused; max_per_transaction := maxtx;
     lifetime_cap := cap; merchant_name := merchant_name s;
     created_at := created_at s |}.

Definition set_paid (s : Subscription) (last next tp : Z) : Subscription :=
  mk_sub s last next tp (payment_count s) (is_active s) (is_paused s)
    (max_per_transaction s) (lifetime_cap s).
Definition set_payment_count (s : Subscription) (pc : Z) : Subscription :=
  mk_sub s (last_payment s) (next_payment s) (total_paid s) pc (is_active s)
    (is_paused s) (max_per_transaction s) (lifetime_cap s).
Definition set_flags (s : Subscription) (active paused : bool) : Subscription :=
  mk_sub s (last_payment s) (next_payment s) (total_paid s) (payment_count s)
    active paused (max_per_transaction s) (lifetime_cap s).
Definition set_next_payment (s : Subscription) (next : Z) : Subscription :=
  mk_sub s (last_payment s) next (total_paid s) (payment_count s) (is_active s)
    (is_paused s) (max_per_transaction s) (lifetime_cap s).
Definition set_max_per_transaction (s : Subscription) (m : Z) : Subscription :=
  mk_sub s (last_payment s) (next_payment s) (total_paid s) (payment_count s)
    (is_active s) (is_paused s) m (lifetime_cap s).
Definition set_lifetime_cap (s : Subscription) (c : Z) : Subscription :=
  mk_sub s (last_payment s) (next_payment s) (total_paid s) (payment_count s)
    (is_active s) (is_paused s) (max_per_transaction s) c.

(* ------------------------------------------------------------------ *)
(* lutrii-recurring: instruction handlers                               *)
(* ------------------------------------------------------------------ *)

(* initialize_platform; the `init` constraint on PDA [b"platform"] *)
Definition initialize_platform (now : Z) (signer : Pubkey)
  (daily_volume_limit_ fee_basis_points_ : Z) : M unit :=
  let* w := get in
  match platform w with
  | Some _ => throw (AnchorErr AccountAlreadyInUse)
  | None =>
      require (MIN_FEE_BASIS_POINTS <=? fee_basis_points_) (rerr Recurring.FeeTooLow) ;;
      require (fee_basis_points_ <=? MAX_FEE_BASIS_POINTS) (rerr Recurring.FeeTooHigh) ;;
      store_platform
        {| authority := signer; daily_volume_limit := daily_volume_limit_;
           total_volume_24h := 0; last_volume_reset := now; failed_tx_count := 0;
           emergency_pause := false; fee_basis_points := fee_basis_points_;
           min_fee := 10000; max_fee := 500000; total_subscriptions := 0;
           total_transactions := 0 |}
  end.

(* create_subscription; `init` on PDA [b"subscription", user, merchant] and
   the owner constraints of the two token accounts. *)
Definition create_subscription (now : Z) (signer merchant_ uta mta : Pubkey)
  (amount_ frequency_seconds_ max_per_transaction_ lifetime_cap_ : Z)
  (merchant_name_ : string) : M unit :=
  let* w := get in
  match subs w signer merchant_ with
  | Some _ => throw (AnchorErr AccountAlreadyInUse)
  | None =>
      let* plat := load_platform in
      require (Z.eqb (tok_owner (tokens w uta)) signer)
        (rerr Recurring.InvalidTokenAccountOwner) ;;
      require (Z.eqb (tok_owner (tokens w mta)) merchant_)
        (rerr Recurring.InvalidTokenAccountOwner) ;;
      require (negb (emergency_pause plat)) (rerr Recurring.SystemPaused) ;;
      require (MIN_FREQUENCY_SECONDS <=? frequency_seconds_)
        (rerr Recurring.FrequencyTooShort) ;;
      require (frequency_seconds_ <=? MAX_FREQUENCY_SECONDS)
        (rerr Recurring.FrequencyTooLong) ;;
      require (negb (Nat.eqb (String.length merchant_name_) 0)
               && Nat.leb (String.length merchant_name_) MAX_MERCHANT_NAME_LEN)
        (rerr Recurring.InvalidMerchantName) ;;
      require (0 <? amount_) (rerr Recurring.AmountTooLow) ;;
      require (amount_ <=? max_per_transaction_)
        (rerr Recurring.ExceedsTransactionCap) ;;
      require (amount_ <=? lifetime_cap_) (rerr Recurring.ExceedsLifetimeCap) ;;
      let* next := ok_or (i64_add now frequency_seconds_) Panic in
      store_sub signer merchant_
        {| user := signer; merchant := merchant_; user_token_account := uta;
           merchant_token_account := mta; amount := amount_;
           original_amount := amount_; frequency_seconds := frequency_seconds_;
           last_payment := 0; next_payment := next; total_paid := 0;
           payment_count := 0; is_active := true; is_paused := false;
           max_per_transaction := max_per_transaction_;
           lifetime_cap := lifetime_cap_; merchant_name := merchant_name_;
           created_at := now |} ;;
      approve_checked uta (SubscriptionPda signer merchant_) signer lifetime_cap_ ;;
      let* plat := load_platform in
      let* n := ok_or (u64_checked_add (total_subscriptions plat) 1)
                  (rerr Recurring.Overflow) in
      store_platform (set_total_subscriptions plat n)
  end.

(* execute_payment: permissionless; the token accounts are those recorded in
   the subscription (constraints `user_token_account.key() ==
   subscription.user_token_account`, likewise for the merchant), the fee
   account is any account the caller passes. *)
Definition execute_payment (now : Z) (u m : Pubkey) (platform_fee_account : Pubkey)
  : M unit :=
  let* s := load_sub u m in
  let* plat := load_platform in
  (* Auto-reset daily volume if 24h passed *)
  let* window_end := ok_or (i64_add (last_volume_reset plat) SECONDS_PER_DAY) Panic in
  (if window_end <=? now
   then store_platform (set_volume plat 0 now)
   else ret tt) ;;
  let* plat := load_platform in
  (* Security checks *)
  require (negb (emergency_pause plat)) (rerr Recurring.SystemPaused) ;;
  require (is_active s) (rerr Recurring.SubscriptionInactive) ;;
  require (negb (is_paused s)) (rerr Recurring.SubscriptionPaused) ;;
  require (next_payment s <=? now) (rerr Recurring.PaymentNotDue) ;;
  (* Check lifetime cap *)
  let* new_total := ok_or (u64_checked_add (total_paid s) (amount s))
                      (rerr Recurring.Overflow) in
  require (new_total <=? lifetime_cap s) (rerr Recurring.ExceedsLifetimeCap) ;;
  (* Check velocity limits *)
  let* new_volume := ok_or (u64_checked_add (total_volume_24h plat) (amount s))
                       (rerr Recurring.Overflow) in
  require (new_volume <=? daily_volume_limit plat) (rerr Recurring.VelocityExceeded) ;;
  (* Price variance protection *)
  (if 0 <? payment_count s
   then let variance := u64_abs_diff (amount s) (original_amount s) in
        let* max_variance := ok_or (u_checked_div (original_amount s) 10)
                               (rerr Recurring.Overflow) in
        require (variance <=? max_variance) (rerr Recurring.PriceVarianceExceeded)
   else ret tt) ;;
  (* Calculate platform fee *)
  let* fee := lift (calculate_fee (amount s) (fee_basis_points plat)
                      (min_fee plat) (max_fee plat)) in
  let* merchant_amount := ok_or (u64_checked_sub (amount s) fee)
                            (rerr Recurring.InsufficientAmount) in
  (* Transfer to merchant using delegated authority *)
  transfer_checked (user_token_account s) (merchant_token_account s)
    (SubscriptionPda (user s) (merchant s)) merchant_amount ;;
  (* Transfer platform fee *)
  (if 0 <? fee
   then transfer_checked (user_token_account s) platform_fee_account
          (SubscriptionPda (user s) (merchant s)) fee
   else ret tt) ;;
  (* Update subscription state *)
  let* next := ok_or (i64_add now (frequency_seconds s)) Panic in
  let s1 := set_paid s now next new_total in
  store_sub u m s1 ;;
  let* pc := ok_or (u32_checked_add (payment_count s1) 1) (rerr Recurring.Overflow) in
  store_sub u m (set_payment_count s1 pc) ;;
  (* Update platform stats *)
  let plat1 := set_volume plat new_volume (last_volume_reset plat) in
  store_platform plat1 ;;
  let* ntx := ok_or (u64_checked_add (total_transactions plat1) 1)
                (rerr Recurring.Overflow) in
  store_platform (set_total_transactions plat1 ntx).

(* The accounts of `ModifySubscription` / `CancelSubscription` /
   `UpdateLimits`: the subscription PDA with `has_one = user`. *)
Definition load_own_sub (u m signer : Pubkey) : M Subscription :=
  let* s := load_sub u m in
  require (Z.eqb (user s) signer) (rerr Recurring.UnauthorizedUser) ;;
  ret s.

Definition pause_subscription (u m signer : Pubkey) : M unit :=
  let* s := load_own_sub u m signer in
  let* _ := load_platform in
  require (is_active s) (rerr Recurring.SubscriptionInactive) ;;
  require (negb (is_paused s)) (rerr Recurring.AlreadyPaused) ;;
  store_sub u m (set_flags s (is_active s) true).

Definition resume_subscription (now : Z) (u m signer : Pubkey) : M unit :=
  let* s := load_own_sub u m signer in
  let* _ := load_platform in
  require (is_active s) (rerr Recurring.SubscriptionInactive) ;;
  require (is_paused s) (rerr Recurring.NotPaused) ;;
  let s1 := set_flags s (is_active s) false in
  let* next := ok_or (i64_add now (frequency_seconds s1)) Panic in
  store_sub u m (set_next_payment s1 next).

Definition cancel_subscription (u m signer : Pubkey) : M unit :=
  let* s := load_own_sub u m signer in
  let* _ := load_platform in
  require (is_active s) (rerr Recurring.SubscriptionInactive) ;;
  (* Revoke delegation *)
  revoke (user_token_account s) signer ;;
  store_sub u m (set_flags s false false) ;;
  (* Update platform stats *)
  let* plat := load_platform in
  store_platform (set_total_subscriptions plat
                    (u64_saturating_sub (total_subscriptions plat) 1)).

(* close_subscription; `close = user` deletes the account. *)
Definition close_subscription (u m signer : Pubkey) : M unit :=
  let* s := load_own_sub u m signer in
  require (negb (is_active s)) (rerr Recurring.SubscriptionStillActive) ;;
  require (negb (is_active s)) (rerr Recurring.SubscriptionStillActive) ;;
  modify (fun w => with_sub w u m None).

Definition update_limits (u m signer : Pubkey)
  (new_max_per_transaction new_lifetime_cap : option Z) : M unit :=
  let* s := load_own_sub u m signer in
  require (is_active s) (rerr Recurring.SubscriptionInactive) ;;
  let* s1 :=
    match new_max_per_transaction with
    | Some max_tx =>
        require (amount s <=? max_tx) (rerr Recurring.ExceedsTransactionCap) ;;
        let s1 := set_max_per_transaction s max_tx in
        store_sub u m s1 ;; ret s1
    | None => ret s
    end in
  match new_lifetime_cap with
  | Some lifetime =>
      require (total_paid s1 <=? lifetime) (rerr Recurring.ExceedsLifetimeCap) ;;
      (if lifetime_cap s1 <? lifetime
       then approve_checked (user_token_account s1)
              (SubscriptionPda (user s1) (merchant s1)) signer lifetime
       else ret tt) ;;
      store_sub u m (set_lifetime_cap s1 lifetime)
  | None => ret tt
  end.

(* `AdminAction`: platform PDA with `has_one = authority`. *)
Definition load_admin_platform (signer : Pubkey) : M PlatformState :=
  let* plat := load_platform in
  require (Z.eqb (authority plat) signer) (rerr Recurring.UnauthorizedAdmin) ;;
  ret plat.

Definition emergency_pause_ix (signer : Pubkey) : M unit :=
  let* plat := load_admin_platform signer in
  store_platform (set_emergency_pause plat true).

Definition emergency_unpause (now : Z) (signer : Pubkey) : M unit :=
  let* plat := load_admin_platform signer in
  let p1 := set_emergency_pause plat false in
  let p2 := set_volume p1 0 now in
  store_platform (set_failed_tx_count p2 0).

(* ------------------------------------------------------------------ *)
(* lutrii-merchant-registry: field assignments                          *)
(* ------------------------------------------------------------------ *)

Definition MAX_BUSINESS_NAME_LEN : nat := 64.
Definition MAX_WEBHOOK_URL_LEN : nat := 128.
Definition MAX_CATEGORY_LEN : nat := 32.
Definition MAX_REVIEW_COMMENT_LEN : nat := 256.
Definition PREMIUM_BADGE_DURATION_DAYS : Z := 30.
Definition PREMIUM_BADGE_PRICE : Z := 50000000.
Definition MIN_SUBSCRIPTION_AGE_SECONDS : Z := 7 * SECONDS_PER_DAY.

(* The program id `lutrii_recurring::ID` ("146BGD...") as a key. *)
Definition lutrii_recurring_ID : Pubkey := 146.

(* The registry's own program id, `crate::ID` of lutrii-merchant-registry
   ("3RkcL88..."), as a key. *)
Definition lutrii_merchant_registry_ID : Pubkey := 388.

(* The program that owns every subscription account: lutrii-recurring's
   `init` in CreateSubscription creates them. *)
Definition subscription_account_owner : Pubkey := lutrii_recurring_ID.

(* `T::owner()` of the registry's `lutrii_recurring::Subscription`: the
   struct is a copy declared with `#[account]` inside the registry crate
   (`pub mod lutrii_recurring`), and `#[account]` makes a type's owner
   `crate::ID`, the registry's program id. *)
Definition registry_subscription_owner : Pubkey := lutrii_merchant_registry_ID.

(* `Account<'info, T>` on a subscription PDA, where `T::owner()` is
   `expected_owner`: the account must exist, and be owned by that program. *)
Definition load_sub_owned_by (expected_owner : Pubkey) (u m : Pubkey) : M Subscription :=
  fun w => match subs w u m with
           | Some s =>
               if Z.eqb subscription_account_owner expected_owner then (w, Ok s)
               else (w, Err (AnchorErr AccountOwnedByWrongProgram))
           | None => (w, Err (AnchorErr AccountNotInitialized))
           end.

Definition len_ok (s : string) (max : nat) : bool :=
  negb (Nat.eqb (String.length s) 0) && Nat.leb (String.length s) max.

Definition mk_merchant (m : Merchant) (bn url cat : string) (tier : VerificationTier)
  (score ttx vol failed : Z) (premium : bool) (expires updated : Z) : Merchant :=
  {| owner := owner m; business_name := bn; webhook_url := url; category := cat;
     verification_tier := tier; community_score := score;
     m_total_transactions := ttx; total_volume := vol;
     failed_transactions := failed; premium_badge_active := premium;
     premium_badge_expires := expires; m_created_at := m_created_at m;
     last_updated := updated |}.

Definition set_tier (m : Merchant) (t : VerificationTier) : Merchant :=
  mk_merchant m (business_name m) (webhook_url m) (category m) t
    (community_score m) (m_total_transactions m) (total_volume m)
    (failed_transactions m) (premium_badge_active m) (premium_badge_expires m)
    (last_updated m).
Definition set_premium (m : Merchant) (b : bool) : Merchant :=
  mk_merchant m (business_name m) (webhook_url m) (category m)
    (verification_tier m) (community_score m) (m_total_transactions m)
    (total_volume m) (failed_transactions m) b (premium_badge_expires m)
    (last_updated m).
Definition set_premium_expires (m : Merchant) (e : Z) : Merchant :=
  mk_merchant m (business_name m) (webhook_url m) (category m)
    (verification_tier m) (community_score m) (m_total_transactions m)
    (total_volume m) (failed_transactions m) (premium_badge_active m) e
    (last_updated m).
Definition set_last_updated (m : Merchant) (t : Z) : Merchant :=
  mk_merchant m (business_name m) (webhook_url m) (category m)
    (verification_tier m) (community_score m) (m_total_transactions m)
    (total_volume m) (failed_transactions m) (premium_badge_active m)
    (premium_badge_expires m) t.
Definition set_score (m : Merchant) (sc : Z) : Merchant :=
  mk_merchant m (business_name m) (webhook_url m) (category m)
    (verification_tier m) sc (m_total_transactions m) (total_volume m)
    (failed_transactions m) (premium_badge_active m) (premium_badge_expires m)
    (last_updated m).
Definition set_counts (m : Merchant) (ttx vol failed : Z) : Merchant :=
  mk_merchant m (business_name m) (webhook_url m) (category m)
    (verification_tier m) (community_score m) ttx vol failed
    (premium_badge_active m) (premium_badge_expires m) (last_updated m).
Definition set_info (m : Merchant) (bn url cat : string) : Merchant :=
  mk_merchant m bn url cat (verification_tier m) (community_score m)
    (m_total_transactions m) (total_volume m) (failed_transactions m)
    (premium_badge_active m) (premium_badge_expires m) (last_updated m).

(* ------------------------------------------------------------------ *)
(* lutrii-merchant-registry: instruction handlers                       *)
(* ------------------------------------------------------------------ *)

Definition initialize_registry (signer : Pubkey) : M unit :=
  let* w := get in
  match registry w with
  | Some _ => throw (AnchorErr AccountAlreadyInUse)
  | None =>
      store_registry {| reg_authority := signer; total_merchants := 0;
                        verified_merchants := 0;
                        premium_badge_price := PREMIUM_BADGE_PRICE |}
  end.

Definition apply_for_verification (now : Z) (signer : Pubkey)
  (business_name_ webhook_url_ category_ : string) : M unit :=
  let* w := get in
  match merchants w signer with
  | Some _ => throw (AnchorErr AccountAlreadyInUse)
  | None =>
      let* _ := load_registry in
      require (len_ok business_name_ MAX_BUSINESS_NAME_LEN)
        (gerr Registry.InvalidBusinessName) ;;
      require (len_ok webhook_url_ MAX_WEBHOOK_URL_LEN)
        (gerr Registry.InvalidWebhookUrl) ;;
      require (len_ok category_ MAX_CATEGORY_LEN) (gerr Registry.InvalidCategory) ;;
      store_merchant signer
        {| owner := signer; business_name := business_name_;
           webhook_url := webhook_url_; category := category_;
           verification_tier := Unverified; community_score := 0;
           m_total_transactions := 0; total_volume := 0;
           failed_transactions := 0; premium_badge_active := false;
           premium_badge_expires := 0; m_created_at := now;
           last_updated := now |} ;;
      let* reg := load_registry in
      let* n := ok_or (u64_checked_add (total_merchants reg) 1)
                  (gerr Registry.Overflow) in
      store_registry {| reg_authority := reg_authority reg; total_merchants := n;
                        verified_merchants := verified_merchants reg;
                        premium_badge_price := premium_badge_price reg |}
  end.

(* `AdminMerchantAction`: the merchant PDA and the registry PDA with
   `has_one = authority`. *)
Definition load_admin_merchant (signer owner_ : Pubkey) : M Merchant :=
  let* mr := load_merchant owner_ in
  let* reg := load_registry in
  require (Z.eqb (reg_authority reg) signer) (gerr Registry.UnauthorizedAdmin) ;;
  ret mr.

Definition approve_merchant (now : Z) (signer owner_ : Pubkey)
  (tier : VerificationTier) : M unit :=
  let* mr := load_admin_merchant signer owner_ in
  let previous_tier := verification_tier mr in
  require (negb (tier_eqb tier Community))
    (gerr Registry.CannotManuallySetCommunityTier) ;;
  store_merchant owner_ (set_last_updated (set_tier mr tier) now) ;;
  (if tier_eqb previous_tier Unverified && tier_eqb tier Verified
   then let* reg := load_registry in
        let* n := ok_or (u64_checked_add (verified_merchants reg) 1)
                    (gerr Registry.Overflow) in
        store_registry {| reg_authority := reg_authority reg;
                          total_merchants := total_merchants reg;
                          verified_merchants := n;
                          premium_badge_price := premium_badge_price reg |}
   else ret tt).

Definition subscribe_premium_badge (now : Z) (signer : Pubkey)
  (merchant_token_account_ registry_fee_account : Pubkey) : M unit :=
  let* mr := load_merchant signer in
  require (Z.eqb (owner mr) signer) (gerr Registry.UnauthorizedMerchantOwner) ;;
  let* reg := load_registry in
  require (tier_eqb (verification_tier mr) Verified
           || tier_eqb (verification_tier mr) Community)
    (gerr Registry.MustBeVerifiedFirst) ;;
  transfer_checked merchant_token_account_ registry_fee_account (Wallet signer)
    (premium_badge_price reg) ;;
  let* expires := ok_or (i64_add now (PREMIUM_BADGE_DURATION_DAYS * SECONDS_PER_DAY))
                    Panic in
  store_merchant signer (set_last_updated (set_premium_expires (set_premium mr true) expires) now).

(* record_transaction.  The instructions sysvar is given by the program ids
   of the transaction's top-level instructions and the index of the current
   one (`load_current_index_checked` / `load_instruction_at_checked`). *)
Definition record_transaction (now : Z) (owner_ : Pubkey)
  (tx_program_ids : list Pubkey) (current_index : Z)
  (amount_ : Z) (success : bool) : M unit :=
  let* mr := load_merchant owner_ in
  (* CPI validation *)
  require (0 <? current_index) (gerr Registry.MustBeCalledViaCpi) ;;
  let* parent_program_id :=
    ok_or (nth_error tx_program_ids (Z.to_nat (current_index - 1)))
      (gerr Registry.MustBeCalledViaCpi) in
  require (Z.eqb parent_program_id lutrii_recurring_ID)
    (gerr Registry.UnauthorizedCpiCaller) ;;
  (* Auto-deactivate expired premium badges *)
  let mr := if premium_badge_active mr && (premium_badge_expires mr <=? now)
            then set_premium mr false else mr in
  (* Update stats based on success *)
  let* mr :=
    if success then
      let* ttx := ok_or (u64_checked_add (m_total_transactions mr) 1)
                    (gerr Registry.Overflow) in
      let* vol := ok_or (u64_checked_add (total_volume mr) amount_)
                    (gerr Registry.Overflow) in
      let* sc := ok_or (i32_checked_add (community_score mr) 10)
                   (gerr Registry.Overflow) in
      ret (set_score (set_counts mr ttx vol (failed_transactions mr)) sc)
    else
      let* f := ok_or (u32_checked_add (failed_transactions mr) 1)
                  (gerr Registry.Overflow) in
      ret (set_score (set_counts mr (m_total_transactions mr) (total_volume mr) f)
             (i32_saturating_sub (community_score mr) 25)) in
  let mr := set_last_updated mr now in
  (* Auto-upgrade to Community tier if metrics are excellent *)
  let mr := if tier_eqb (verification_tier mr) Verified
               && (100 <=? m_total_transactions mr)
               && (1000 <=? community_score mr)
               && (failed_transactions mr <? 5)
            then set_tier mr Community else mr in
  (* Auto-suspend if score is critically low *)
  let mr := if community_score mr <? -100
            then set_premium (set_tier mr Suspended) false else mr in
  store_merchant owner_ mr.

Definition score_change_of (rating_ : Z) : Z :=
  if rating_ =? 5 then 20
  else if rating_ =? 4 then 10
  else if rating_ =? 3 then 0
  else if rating_ =? 2 then -15
  else if rating_ =? 1 then -30
  else 0.

(* submit_review.  Accounts, in Anchor's order: the fields are
   deserialized first (the `init` review PDA [b"review", merchant, reviewer]
   is only taken; the merchant PDA; the subscription PDA
   [b"subscription", reviewer, merchant.owner] as an
   `Account<lutrii_recurring::Subscription>`, whose owner must be
   registry_subscription_owner); then the constraints: `init` on the review,
   then the subscription's three constraints. *)
Definition submit_review (now : Z) (reviewer owner_ : Pubkey) (rating_ : Z)
  (comment_ : string) : M unit :=
  let* mr := load_merchant owner_ in
  let* s := load_sub_owned_by registry_subscription_owner reviewer owner_ in
  let* w := get in
  match reviews w owner_ reviewer with
  | Some _ => throw (AnchorErr AccountAlreadyInUse)
  | None =>
      require (is_active s) (gerr Registry.NoActiveSubscription) ;;
      require (3 <=? payment_count s) (gerr Registry.InsufficientPaymentHistory) ;;
      require (1000000 <=? total_paid s) (gerr Registry.InsufficientTotalPaid) ;;
      (* handler *)
      require ((1 <=? rating_) && (rating_ <=? 5)) (gerr Registry.InvalidRating) ;;
      require (len_ok comment_ MAX_REVIEW_COMMENT_LEN) (gerr Registry.InvalidComment) ;;
      let* subscription_age := ok_or (i64_sub now (created_at s)) Panic in
      require (MIN_SUBSCRIPTION_AGE_SECONDS <=? subscription_age)
        (gerr Registry.SubscriptionTooNew) ;;
      modify (fun w => with_review w owner_ reviewer
                         (Some {| rv_merchant := owner_; rv_reviewer := reviewer;
                                  rating := rating_; comment := comment_;
                                  timestamp := now |})) ;;
      let score_change := score_change_of rating_ in
      let* sc :=
        if 0 <=? score_change
        then ok_or (i32_checked_add (community_score mr) score_change)
               (gerr Registry.Overflow)
        else ret (i32_saturating_sub (community_score mr) (Z.abs score_change)) in
      store_merchant owner_ (set_last_updated (set_score mr sc) now)
  end.

Definition suspend_merchant (now : Z) (signer owner_ : Pubkey) (reason : string)
  : M unit :=
  let* mr := load_admin_merchant signer owner_ in
  require (len_ok reason 256) (gerr Registry.InvalidSuspensionReason) ;;
  store_merchant owner_ (set_last_updated (set_premium (set_tier mr Suspended) false) now).

Definition update_merchant_info (now : Z) (signer : Pubkey)
  (business_name_ webhook_url_ category_ : option string) : M unit :=
  let* mr := load_merchant signer in
  require (Z.eqb (owner mr) signer) (gerr Registry.UnauthorizedMerchantOwner) ;;
  let* bn := match business_name_ with
             | Some n => require (len_ok n MAX_BUSINESS_NAME_LEN)
                           (gerr Registry.InvalidBusinessName) ;; ret n
             | None => ret (business_name mr)
             end in
  let* url := match webhook_url_ with
              | Some n => require (len_ok n MAX_WEBHOOK_URL_LEN)
                            (gerr Registry.InvalidWebhookUrl) ;; ret n
              | None => ret (webhook_url mr)
              end in
  let* cat := match category_ with
              | Some n => require (len_ok n MAX_CATEGORY_LEN)
                            (gerr Registry.InvalidCategory) ;; ret n
              | None => ret (category mr)
              end in
  store_merchant signer (set_last_updated (set_info mr bn url cat) now).

(* ------------------------------------------------------------------ *)
(* Instructions and the runtime                                         *)
(* ------------------------------------------------------------------ *)

(* What the runtime supplies: the clock, the signer, and the instructions
   sysvar of the enclosing transaction. *)
Record Env := {
  now : Z;
  signer : Pubkey;
  tx_program_ids : list Pubkey;
  current_index : Z;
}.

Inductive Instruction :=
(* lutrii-recurring *)
| InitializePlatform (daily_volume_limit_ fee_basis_points_ : Z)
| CreateSubscription (merchant_ uta mta : Pubkey)
    (amount_ frequency_seconds_ max_per_transaction_ lifetime_cap_ : Z)
    (merchant_name_ : string)
| ExecutePayment (u m platform_fee_account : Pubkey)
| PauseSubscription (u m : Pubkey)
| ResumeSubscription (u m : Pubkey)
| CancelSubscription (u m : Pubkey)
| CloseSubscription (u m : Pubkey)
| UpdateLimits (u m : Pubkey) (new_max_per_transaction new_lifetime_cap : option Z)
| EmergencyPause
| EmergencyUnpause
(* lutrii-merchant-registry *)
| InitializeRegistry
| ApplyForVerification (business_name_ webhook_url_ category_ : string)
| ApproveMerchant (owner_ : Pubkey) (tier : VerificationTier)
| SubscribePremiumBadge (merchant_token_account_ registry_fee_account : Pubkey)
| RecordTransaction (owner_ : Pubkey) (amount_ : Z) (success : bool)
| SubmitReview (owner_ : Pubkey) (rating_ : Z) (comment_ : string)
| SuspendMerchant (owner_ : Pubkey) (reason : string)
| UpdateMerchantInfo (business_name_ webhook_url_ category_ : option string).

Definition handler (env : Env) (ix : Instruction) : M unit :=
  match ix with
  | InitializePlatform d f => initialize_platform (now env) (signer env) d f
  | CreateSubscription mc uta mta a f mx cap n =>
      create_subscription (now env) (signer env) mc uta mta a f mx cap n
  | ExecutePayment u m fa => execute_payment (now env) u m fa
  | PauseSubscription u m => pause_subscription u m (signer env)
  | ResumeSubscription u m => resume_subscription (now env) u m (signer env)
  | CancelSubscription u m => cancel_subscription u m (signer env)
  | CloseSubscription u m => close_subscription u m (signer env)
  | UpdateLimits u m mx cap => update_limits u m (signer env) mx cap
  | EmergencyPause => emergency_pause_ix (signer env)
  | EmergencyUnpause => emergency_unpause (now env) (signer env)
  | InitializeRegistry => initialize_registry (signer env)
  | ApplyForVerification bn url cat =>
      apply_for_verification (now env) (signer env) bn url cat
  | ApproveMerchant o t => approve_merchant (now env) (signer env) o t
  | SubscribePremiumBadge mta fa =>
      subscribe_premium_badge (now env) (signer env) mta fa
  | RecordTransaction o a ok =>
      record_transaction (now env) o (tx_program_ids env) (current_index env) a ok
  | SubmitReview o r c => submit_review (now env) (signer env) o r c
  | SuspendMerchant o r => suspend_merchant (now env) (signer env) o r
  | UpdateMerchantInfo bn url cat =>
      update_merchant_info (now env) (signer env) bn url cat
  end.

(* The runtime commits the handler's writes only when it returns Ok. *)
Definition run_instruction (env : Env) (ix : Instruction) (w : World)
  : World * res unit :=
  match handler env ix w with
  | (w', Ok a) => (w', Ok a)
  | (_, Err e) => (w, Err e)
  end.

(* Worlds reachable from one where neither program has created any account
   (token accounts are given). *)
Definition fresh (w : World) : Prop :=
  platform w = None /\ (forall u m, subs w u m = None) /\ registry w = None /\
  (forall o, merchants w o = None) /\ (forall o r, reviews w o r = None).

Inductive reachable : World -> Prop :=
| reachable_fresh w : fresh w -> reachable w
| reachable_step env ix w : reachable w -> reachable (fst (run_instruction env ix w)).

(* A concrete deployment used by the examples below: user 1 pays merchant
   (owner) 2; token accounts 10 (user), 20 (merchant), 30 (platform fees). *)
Definition tok0 (k : Pubkey) : TokenAccount :=
  {| tok_owner := if k =? 10 then 1 else if k =? 20 then 2 else 3;
     tok_amount := if k =? 10 then U64_MAX else 0;
     tok_delegate := None; tok_delegated_amount := 0 |}.

Definition world0 : World :=
  {| platform := None; subs := fun _ _ => None; tokens := tok0;
     registry := None; merchants := fun _ => None; reviews := fun _ _ => None |}.

Definition env_at (t : Z) (k : Pubkey) : Env :=
  {| now := t; signer := k; tx_program_ids := []; current_index := 0 |}.

Fixpoint run_all (w : World) (l : list (Env * Instruction)) : World * list (res unit) :=
  match l with
  | [] => (w, [])
  | (e, ix) :: l' =>
      let (w1, r) := run_instruction e ix w in
      let (w2, rs) := run_all w1 l' in (w2, r :: rs)
  end.

(* The deployment of the counterexample to C1: a subscription of 2^63 per
   cycle under the largest lifetime cap, after its first payment. *)
Definition c1_trace : list (Env * Instruction) :=
  [ (env_at 1000 7, InitializePlatform U64_MAX 1);
    (env_at 1000 1, CreateSubscription 2 10 20 (2 ^ 63) 3600 (2 ^ 63) U64_MAX "svc");
    (env_at 5000 9, ExecutePayment 1 2 30) ].

Definition c1_world : World := fst (run_all world0 c1_trace).

(* C3: the platform is paused by its authority (7) after the first payment. *)
Definition c3_world : World :=
  fst (run_all c1_world [(env_at 6000 7, EmergencyPause)]).

(* C2: a registry and a merchant record for owner 2 exist, and user 1 has a
   subscription to merchant 2. *)
Definition c2_trace : list (Env * Instruction) :=
  [ (env_at 1000 7, InitializePlatform U64_MAX 1);
    (env_at 1000 7, InitializeRegistry);
    (env_at 1000 2, ApplyForVerification "Shop" "https://shop.example" "media");
    (env_at 1000 7, ApproveMerchant 2 Verified);
    (env_at 1000 1, CreateSubscription 2 10 20 5000000 3600 5000000 U64_MAX "svc") ].

Definition c2_world : World := fst (run_all world0 c2_trace).

(* An instructions sysvar whose previous top-level instruction belongs to
   lutrii-recurring. *)
Definition env_after_recurring (t : Z) (k : Pubkey) : Env :=
  {| now := t; signer := k; tx_program_ids := [lutrii_recurring_ID; 999];
     current_index := 1 |}.

(* C4: merchant 2 is Verified with community_score -100 after four failed
   reports; user 1 has paid it three times 1_000_000 since time 1000. *)
Definition c4_trace : list (Env * Instruction) :=
  c2_trace ++
  [ (env_after_recurring 2000 9, RecordTransaction 2 0 false);
    (env_after_recurring 2000 9, RecordTransaction 2 0 false);
    (env_after_recurring 2000 9, RecordTransaction 2 0 false);
    (env_after_recurring 2000 9, RecordTransaction 2 0 false);
    (env_at 5000 9, ExecutePayment 1 2 30);
    (env_at 9000 9, ExecutePayment 1 2 30);
    (env_at 13000 9, ExecutePayment 1 2 30) ].

Definition c4_world : World := fst (run_all world0 c4_trace).

(* C6: a Verified merchant one successful report away from promotion. *)
Definition c6_merchant : Merchant :=
  {| owner := 2; business_name := "Shop"; webhook_url := "https://shop.example";
     category := "media"; verification_tier := Verified; community_score := 990;
     m_total_transactions := 99; total_volume := 99000000;
     failed_transactions := 0; premium_badge_active := false;
     premium_badge_expires := 0; m_created_at := 1000; last_updated := 2000 |}.

Definition c6_world : World :=
  {| platform := None; subs := fun _ _ => None; tokens := tok0; registry := None;
     merchants := fun o => if o =? 2 then Some c6_merchant else None;
     reviews := fun _ _ => None |}.

(* C10: a subscription whose amount (5000) is below the platform's
   min_fee (10000). *)
Definition c10_trace : list (Env * Instruction) :=
  [ (env_at 1000 7, InitializePlatform U64_MAX 1);
    (env_at 1000 1, CreateSubscription 2 10 20 5000 3600 5000 U64_MAX "svc") ].

Definition c10_world : World := fst (run_all world0 c10_trace).

(* ------------------------------------------------------------------ *)
(* Invariants of stored subscriptions                                   *)
(* ------------------------------------------------------------------ *)

(* What every stored subscription satisfies. *)
Definition sub_ok (s : Subscription) : Prop :=
  0 < amount s /\ amount s = original_amount s /\ 0 <= total_paid s <= lifetime_cap s.

Definition subs_ok (w : World) : Prop :=
  forall u m s, subs w u m = Some s -> sub_ok s.

(* How a stored subscription may change in one step. *)
Definition sub_evolves (s s' : Subscription) : Prop :=
  amount s' = amount s /\ original_amount s' = original_amount s /\
  total_paid s <= total_paid s'.

(* The errors execute_payment raises before its lifetime-cap check. *)
Definition execute_payment_early_errors : list Error :=
  [AnchorErr AccountNotInitialized; Panic; rerr Recurring.SystemPaused;
   rerr Recurring.SubscriptionInactive; rerr Recurring.SubscriptionPaused;
   rerr Recurring.PaymentNotDue].

(* The platform's configuration as initialize_platform sets it and no
   instruction changes it. *)
Definition platform_inv (w : World) : Prop :=
  forall p, platform w = Some p ->
    MIN_FEE_BASIS_POINTS <= fee_basis_points p <= MAX_FEE_BASIS_POINTS /\
    min_fee p = 10000 /\ max_fee p = 500000 /\ failed_tx_count p = 0 /\
    0 <= total_volume_24h p <= Z.max 0 (daily_volume_limit p).

(* Every stored account sits under the seeds its own keys give. *)
Definition keys_ok (w : World) : Prop :=
  (forall u m s, subs w u m = Some s -> user s = u /\ merchant s = m) /\
  (forall o mr, merchants w o = Some mr -> owner mr = o) /\
  (forall o r v, reviews w o r = Some v -> rv_merchant v = o /\ rv_reviewer v = r).

(* Concrete states used by the witnesses of the further properties. *)
Definition platform_world : World :=
  fst (run_instruction (env_at 1000 7) (InitializePlatform U64_MAX 1) world0).

Definition badge_world : World :=
  with_token c2_world 20 {| tok_owner := 2; tok_amount := 100000000;
                            tok_delegate := None; tok_delegated_amount := 0 |}.

Definition expired_badge_world : World :=
  with_merchant c2_world 2
    (Some {| owner := 2; business_name := "Shop"; webhook_url := "https://shop.example";
             category := "media"; verification_tier := Verified; community_score := 0;
             m_total_transactions := 0; total_volume := 0; failed_transactions := 0;
             premium_badge_active := true; premium_badge_expires := 2500;
             m_created_at := 1000; last_updated := 1000 |}).

Definition suspended_world : World :=
  fst (run_instruction (env_at 2000 7) (SuspendMerchant 2 "fraud") c2_world).

(* ------------------------------------------------------------------ *)
(* Proof tools                                                          *)
(* ------------------------------------------------------------------ *)

Lemma checked_Some (lo hi x y : Z) :
  checked lo hi x = Some y -> y = x /\ lo <= x <= hi.
Proof.
  unfold checked, in_range.
  destruct (lo <=? x) eqn:E1, (x <=? hi) eqn:E2; simpl; intros H; try discriminate.
  inversion H; subst. apply Z.leb_le in E1. apply Z.leb_le in E2. auto.
Qed.

Lemma checked_None (lo hi x : Z) :
  checked lo hi x = None -> x < lo \/ hi < x.
Proof.
  unfold checked, in_range.
  destruct (lo <=? x) eqn:E1, (x <=? hi) eqn:E2; simpl; intros H; try discriminate.
  - apply Z.leb_gt in E2. auto.
  - apply Z.leb_gt in E1. auto.
  - apply Z.leb_gt in E1. auto.
Qed.

Lemma spl_transfer_err t a b c d e :
  spl_transfer t a b c d = Err e -> exists te, e = TokenErr te.
Proof.
  unfold spl_transfer. cbv zeta. intros H.
  repeat match type of H with
         | context [match ?x with _ => _ end] =>
             lazymatch x with
             | context [match _ with _ => _ end] => fail
             | _ => destruct x
             end
         end; inversion H; eauto.
Qed.

Lemma spl_approve_err t a b c d e :
  spl_approve t a b c d = Err e -> exists te, e = TokenErr te.
Proof.
  unfold spl_approve. destruct (negb _); intros H; inversion H; eauto.
Qed.

Lemma spl_revoke_err t a b e :
  spl_revoke t a b = Err e -> exists te, e = TokenErr te.
Proof.
  unfold spl_revoke. destruct (negb _); intros H; inversion H; eauto.
Qed.

Lemma calculate_fee_err a b c d e :
  calculate_fee a b c d = Err e -> e = rerr Recurring.Overflow.
Proof.
  unfold calculate_fee.
  destruct (u128_checked_mul a b); [|intros H; inversion H; auto].
  destruct (u_checked_div z BASIS_POINTS_DIVISOR); [|intros H; inversion H; auto].
  destruct (u64_try_from z0); intros H; inversion H; auto.
Qed.

(* Symbolic execution of a handler from `H : h w = (w', Ok a)`: every
   branch point is split; the branches that fail are discarded. *)
Arguments checked : simpl never.
Arguments spl_transfer : simpl never.
Arguments spl_approve : simpl never.
Arguments spl_revoke : simpl never.
Arguments calculate_fee : simpl never.
Arguments len_ok : simpl never.
Arguments upd1 : simpl never.
Arguments upd2 : simpl never.

Ltac exec_cbn H :=
  cbv beta iota zeta delta [bind ret throw get modify require ok_or lift
    load_sub load_sub_owned_by subscription_account_owner
    registry_subscription_owner lutrii_recurring_ID lutrii_merchant_registry_ID
    store_sub load_platform store_platform load_registry
    store_registry load_merchant store_merchant load_own_sub
    load_admin_platform load_admin_merchant token_cpi transfer_checked
    approve_checked revoke rerr gerr u64_checked_add u64_checked_sub
    u32_checked_add i32_checked_add i64_add i64_sub u_checked_div] in H;
  simpl in H.

Ltac exec H :=
  exec_cbn H;
  repeat (match type of H with
          | context [match ?x with _ => _ end] =>
              lazymatch x with
              | context [match _ with _ => _ end] => fail
              | _ => destruct x eqn:?
              end
          end; exec_cbn H; try discriminate H).

(* Turn the facts gathered by `exec` into arithmetic. *)
Ltac facts :=
  repeat match goal with
  | H : checked _ _ _ = Some _ |- _ => apply checked_Some in H; destruct H as [? ?]; subst
  | H : checked _ _ _ = None |- _ => apply checked_None in H
  | H : (_ <=? _) = true |- _ => apply Z.leb_le in H
  | H : (_ <=? _) = false |- _ => apply Z.leb_gt in H
  | H : (_ <? _) = true |- _ => apply Z.ltb_lt in H
  | H : (_ <? _) = false |- _ => apply Z.ltb_ge in H
  | H : (_ =? _) = true |- _ => apply Z.eqb_eq in H; subst
  | H : (_ && _) = true |- _ => apply andb_true_iff in H; destruct H
  | H : negb _ = true |- _ => apply negb_true_iff in H
  | H : negb _ = false |- _ => apply negb_false_iff in H
  | H : Some _ = Some _ |- _ => inversion H; clear H; subst
  | H : spl_transfer _ _ _ _ _ = Err _ |- _ =>
      apply spl_transfer_err in H; destruct H as [? ?]; subst
  | H : spl_approve _ _ _ _ _ = Err _ |- _ =>
      apply spl_approve_err in H; destruct H as [? ?]; subst
  | H : spl_revoke _ _ _ = Err _ |- _ =>
      apply spl_revoke_err in H; destruct H as [? ?]; subst
  | H : calculate_fee _ _ _ _ = Err _ |- _ => apply calculate_fee_err in H; subst
  end.

Ltac split_upd Hs :=
  unfold upd1, upd2 in Hs;
  repeat match type of Hs with
         | context [if ?c then _ else _] => destruct c eqn:?
         end.

(* Unfold the handler of an instruction and execute it symbolically. *)
Ltac exec_handler H :=
  simpl in H;
  unfold initialize_platform, create_subscription, execute_payment,
    pause_subscription, resume_subscription, cancel_subscription,
    close_subscription, update_limits, emergency_pause_ix, emergency_unpause,
    initialize_registry, apply_for_verification, approve_merchant,
    subscribe_premium_badge, record_transaction, submit_review,
    suspend_merchant, update_merchant_info in H;
  exec H.

Lemma run_instruction_cases env ix w w' r :
  run_instruction env ix w = (w', r) ->
  (handler env ix w = (w', r) /\ exists a, r = Ok a) \/
  (w' = w /\ exists e, r = Err e).
Proof.
  unfold run_instruction. destruct (handler env ix w) as [w1 [a|e]]; intros H;
    inversion H; subst; eauto.
Qed.

(* ------------------------------------------------------------------ *)
(* Subscription invariants                                              *)
(* ------------------------------------------------------------------ *)

Section SubscriptionInvariants.

Ltac use_subs_ok Hok :=
  repeat match goal with
         | Hx : subs _ _ _ = Some _ |- _ => pose proof (Hok _ _ _ Hx); clear Hx
         end;
  unfold sub_ok, sub_evolves in *; simpl in *; lia.

Lemma handler_subs_ok env ix w w' a :
  subs_ok w -> handler env ix w = (w', Ok a) -> subs_ok w'.
Proof.
  intros Hok H. destruct ix; exec_handler H; injection H as <-;
    intros x y s' Hs; simpl in Hs; split_upd Hs; facts; eauto; try congruence;
    use_subs_ok Hok.
Qed.

Lemma handler_sub_evolves env ix w w' a u m s s' :
  subs_ok w -> handler env ix w = (w', Ok a) ->
  subs w u m = Some s -> subs w' u m = Some s' -> sub_evolves s s'.
Proof.
  intros Hok H Hs0. destruct ix; exec_handler H; injection H as <-;
    intros Hs; simpl in Hs; split_upd Hs; facts;
    try (rewrite Hs0 in Hs; inversion Hs; subst; unfold sub_evolves; lia);
    try congruence;
    match goal with
    | H1 : subs w ?x ?y = Some ?s1, H2 : subs w ?x ?y = Some ?s2 |- _ =>
        rewrite H1 in H2; inversion H2; subst
    end; use_subs_ok Hok.
Qed.

Lemma run_subs_ok env ix w :
  subs_ok w -> subs_ok (fst (run_instruction env ix w)).
Proof.
  intros Hok. destruct (run_instruction env ix w) as [w' r] eqn:E.
  apply run_instruction_cases in E as [[E [a ->]] | [-> _]]; simpl; auto.
  eapply handler_subs_ok; eauto.
Qed.

Lemma reachable_subs_ok w : reachable w -> subs_ok w.
Proof.
  induction 1 as [w [_ [Hs _]] | env ix w _ IH].
  - intros u m s H. rewrite Hs in H. discriminate.
  - apply run_subs_ok; auto.
Qed.

Lemma run_sub_evolves env ix w u m s s' :
  subs_ok w -> subs w u m = Some s ->
  subs (fst (run_instruction env ix w)) u m = Some s' -> sub_evolves s s'.
Proof.
  intros Hok Hs. destruct (run_instruction env ix w) as [w' r] eqn:E.
  apply run_instruction_cases in E as [[E [a ->]] | [-> _]]; simpl.
  - eapply handler_sub_evolves; eauto.
  - intros Hs'. rewrite Hs in Hs'. inversion Hs'; subst. unfold sub_evolves; lia.
Qed.

End SubscriptionInvariants.

Lemma run_all_cons w e ix l :
  fst (run_all w ((e, ix) :: l)) = fst (run_all (fst (run_instruction e ix w)) l).
Proof.
  simpl. destruct (run_instruction e ix w) as [w1 r]. simpl.
  destruct (run_all w1 l) as [w2 rs]. reflexivity.
Qed.

Lemma reachable_run_all w l : reachable w -> reachable (fst (run_all w l)).
Proof.
  revert w; induction l as [| [e ix] l IH]; intros w Hw; [exact Hw|].
  rewrite run_all_cons. apply IH. apply reachable_step. exact Hw.
Qed.

Lemma world0_fresh : fresh world0.
Proof. repeat split; reflexivity. Qed.

Lemma execute_payment_over_cap now u m fa w s :
  subs w u m = Some s -> sub_ok s -> lifetime_cap s < total_paid s + amount s ->
  exists e, run_instruction {| now := now; signer := 0; tx_program_ids := [];
                               current_index := 0 |} (ExecutePayment u m fa) w = (w, Err e) /\
    (e = rerr Recurring.ExceedsLifetimeCap \/
     (e = rerr Recurring.Overflow /\ U64_MAX < total_paid s + amount s) \/
     In e execute_payment_early_errors).
Proof.
  intros Hs Hok Hcap. unfold sub_ok in Hok. unfold run_instruction.
  destruct (handler _ (ExecutePayment u m fa) w) as [w1 [a|e]] eqn:H.
  - exfalso. exec_handler H. all: facts; try rewrite Hs in *; facts; lia.
  - exists e. split; [reflexivity|].
    exec_handler H; injection H as _ <-; facts; try rewrite Hs in *; facts;
      try lia; simpl; auto 10.
    all: right; left; split; [reflexivity | lia].
Qed.

Lemma update_limits_below_paid env u m mx cap w s :
  subs w u m = Some s -> cap < total_paid s ->
  exists e, run_instruction env (UpdateLimits u m mx (Some cap)) w = (w, Err e).
Proof.
  intros Hs Hcap. unfold run_instruction.
  destruct (handler env (UpdateLimits u m mx (Some cap)) w) as [w1 [a|e]] eqn:H.
  - exfalso. exec_handler H. all: facts; try rewrite Hs in *; facts; simpl in *; lia.
  - eauto.
Qed.

(* ------------------------------------------------------------------ *)
(* C1: total_paid against lifetime_cap                                  *)
(* ------------------------------------------------------------------ *)

(** C1 (as amended).  In every reachable state every subscription has
    total_paid <= lifetime_cap, and no instruction decreases a stored
    subscription's total_paid.  An execute_payment whose total_paid + amount
    exceeds lifetime_cap never succeeds: it fails with ExceedsLifetimeCap, or
    with Overflow when the sum exceeds u64::MAX, unless one of the checks
    before the cap check fails first.  update_limits rejects every new
    lifetime_cap below the current total_paid. *)
Theorem C1_total_paid_capped (w : World) (Hw : reachable w) :
  (forall u m s, subs w u m = Some s -> total_paid s <= lifetime_cap s) /\
  (forall env ix u m s s', subs w u m = Some s ->
     subs (fst (run_instruction env ix w)) u m = Some s' ->
     total_paid s <= total_paid s') /\
  (forall now u m fa s, subs w u m = Some s ->
     lifetime_cap s < total_paid s + amount s ->
     exists e, run_instruction {| now := now; signer := 0; tx_program_ids := [];
                                  current_index := 0 |} (ExecutePayment u m fa) w
               = (w, Err e) /\
       (e = rerr Recurring.ExceedsLifetimeCap \/
        (e = rerr Recurring.Overflow /\ U64_MAX < total_paid s + amount s) \/
        In e execute_payment_early_errors)) /\
  (forall env u m mx cap s, subs w u m = Some s -> cap < total_paid s ->
     exists e, run_instruction env (UpdateLimits u m mx (Some cap)) w = (w, Err e)).
Proof.
  pose proof (reachable_subs_ok w Hw) as Hok.
  split; [|split; [|split]].
  - intros u m s Hs. destruct (Hok u m s Hs) as [_ [_ H]]. lia.
  - intros env ix u m s s' Hs Hs'.
    destruct (run_sub_evolves env ix w u m s s' Hok Hs Hs') as [_ [_ H]]. exact H.
  - intros now u m fa s Hs Hcap.
    eapply execute_payment_over_cap; eauto.
  - intros env u m mx cap s Hs Hcap. eapply update_limits_below_paid; eauto.
Qed.

Lemma C1_witness :
  reachable c1_world /\
  (forall u m s, subs c1_world u m = Some s -> total_paid s <= lifetime_cap s).
Proof.
  assert (Hr : reachable c1_world)
    by (apply reachable_run_all; apply reachable_fresh; exact world0_fresh).
  split; [exact Hr | exact (proj1 (C1_total_paid_capped c1_world Hr))].
Defined.

(** C1 counterexample: in a reachable state whose subscription has
    total_paid + amount = 2^64 > lifetime_cap = u64::MAX, with every earlier
    check passing, execute_payment fails with Overflow, not with
    ExceedsLifetimeCap. *)
Lemma C1_counterexample :
  reachable c1_world /\
  (match subs c1_world 1 2 with
   | Some s => (lifetime_cap s <? total_paid s + amount s) &&
               (U64_MAX <? total_paid s + amount s)
   | None => false
   end) = true /\
  run_instruction (env_at 9000 9) (ExecutePayment 1 2 30) c1_world
  = (c1_world, Err (rerr Recurring.Overflow)).
Proof.
  split; [apply reachable_run_all; apply reachable_fresh; exact world0_fresh|].
  split; vm_compute; reflexivity.
Qed.

(* ------------------------------------------------------------------ *)
(* C9: amount is never changed                                         *)
(* ------------------------------------------------------------------ *)

Lemma execute_payment_no_variance_error env u m fa w w' s :
  subs w u m = Some s -> sub_ok s ->
  run_instruction env (ExecutePayment u m fa) w <>
  (w', Err (rerr Recurring.PriceVarianceExceeded)).
Proof.
  intros Hs Hok Hr. unfold sub_ok in Hok. unfold run_instruction in Hr.
  destruct (handler env (ExecutePayment u m fa) w) as [w1 [a|e]] eqn:H;
    inversion Hr; subst; clear Hr.
  exec_handler H. all: facts; try rewrite Hs in *; facts; unfold u64_abs_diff in *.
  all: replace (amount s - original_amount s) with 0 in * by lia; simpl in *.
  all: try discriminate H.
  all: assert (0 <= original_amount s / 10) by (apply Z.div_pos; lia); lia.
Qed.

(** C9.  In every reachable state every subscription has
    amount = original_amount; no instruction changes amount or
    original_amount of a stored subscription; and execute_payment never
    fails with PriceVarianceExceeded. *)
Theorem C9_amount_fixed (w : World) (Hw : reachable w) (u m : Pubkey)
  (s : Subscription) (Hs : subs w u m = Some s) :
  amount s = original_amount s /\
  (forall env ix s', subs (fst (run_instruction env ix w)) u m = Some s' ->
     amount s' = amount s /\ original_amount s' = original_amount s) /\
  (forall env fa w', run_instruction env (ExecutePayment u m fa) w <>
                     (w', Err (rerr Recurring.PriceVarianceExceeded))).
Proof.
  pose proof (reachable_subs_ok w Hw) as Hok.
  split; [|split].
  - destruct (Hok u m s Hs) as [_ [H _]]. exact H.
  - intros env ix s' Hs'.
    destruct (run_sub_evolves env ix w u m s s' Hok Hs Hs') as [H1 [H2 _]]. auto.
  - intros env fa w'. eapply execute_payment_no_variance_error; eauto.
Qed.

Lemma C9_witness :
  reachable c1_world /\
  (match subs c1_world 1 2 with Some s => amount s = original_amount s | None => False end).
Proof.
  assert (Hr : reachable c1_world)
    by (apply reachable_run_all; apply reachable_fresh; exact world0_fresh).
  split; [exact Hr|].
  destruct (subs c1_world 1 2) as [s|] eqn:E.
  - exact (proj1 (C9_amount_fixed c1_world Hr 1 2 s E)).
  - vm_compute in E. discriminate E.
Defined.

(* ------------------------------------------------------------------ *)
(* C8: calculate_fee                                                    *)
(* ------------------------------------------------------------------ *)

Lemma checked_in (lo hi x : Z) : lo <= x <= hi -> checked lo hi x = Some x.
Proof.
  intros H. unfold checked, in_range.
  rewrite (proj2 (Z.leb_le lo x)) by lia. rewrite (proj2 (Z.leb_le x hi)) by lia.
  reflexivity.
Qed.

(* The u128 product, the division and the narrowing never fail on a u64
   amount and basis points up to 500. *)
Lemma calculate_fee_no_overflow (amount_ basis_points min_fee_ max_fee_ : Z) :
  0 <= amount_ <= U64_MAX -> 0 <= basis_points <= 500 ->
  calculate_fee amount_ basis_points min_fee_ max_fee_ =
  Ok (Z.min (Z.max (amount_ * basis_points / BASIS_POINTS_DIVISOR) min_fee_) max_fee_).
Proof.
  intros Ha Hbp.
  unfold calculate_fee, u128_checked_mul, u_checked_div, u64_try_from.
  assert (Hp : 0 <= amount_ * basis_points <= 500 * amount_) by nia.
  rewrite checked_in by (unfold U128_MAX, U64_MAX in *; lia).
  simpl.
  assert (Hd : 0 <= amount_ * basis_points / BASIS_POINTS_DIVISOR <= amount_).
  { unfold BASIS_POINTS_DIVISOR. split.
    - apply Z.div_pos; lia.
    - apply Z.div_le_upper_bound; lia. }
  rewrite checked_in by lia.
  reflexivity.
Qed.

(** C8.  For every u64 amount, every basis_points in [1, 500] and every
    min_fee <= max_fee, calculate_fee returns Ok (none of its Overflow
    branches is taken) and the fee lies in [min_fee, max_fee]. *)
Theorem C8_fee_bounds (amount_ basis_points min_fee_ max_fee_ : Z)
  (Ha : 0 <= amount_ <= U64_MAX) (Hbp : 1 <= basis_points <= 500)
  (Hm : min_fee_ <= max_fee_) :
  exists fee, calculate_fee amount_ basis_points min_fee_ max_fee_ = Ok fee /\
              min_fee_ <= fee <= max_fee_.
Proof.
  rewrite calculate_fee_no_overflow by lia.
  eexists; split; [reflexivity | lia].
Qed.

Lemma C8_witness :
  (0 <= 5000000 <= U64_MAX /\ 1 <= 100 <= 500 /\ 10000 <= 500000) /\
  exists fee, calculate_fee 5000000 100 10000 500000 = Ok fee /\
              10000 <= fee <= 500000.
Proof.
  assert (H1 : 0 <= 5000000 <= U64_MAX) by (unfold U64_MAX; lia).
  assert (H2 : 1 <= 100 <= 500) by lia.
  assert (H3 : 10000 <= 500000) by lia.
  split; [auto | exact (C8_fee_bounds 5000000 100 10000 500000 H1 H2 H3)].
Defined.

(* ------------------------------------------------------------------ *)
(* C3: failed instructions leave no trace                              *)
(* ------------------------------------------------------------------ *)

(** C3.  Every instruction is all-or-nothing: when it returns an error the
    world after the call is the world before it, whatever the handler wrote
    to its working copy; in particular the platform's total_volume_24h and
    last_volume_reset are those before the call, also when the handler had
    already reset the 24-hour volume window. *)
Theorem C3_all_or_nothing (env : Env) (ix : Instruction) (w w' : World) (e : Error)
  (H : run_instruction env ix w = (w', Err e)) :
  w' = w /\
  (forall p p', platform w = Some p -> platform w' = Some p' ->
     total_volume_24h p' = total_volume_24h p /\
     last_volume_reset p' = last_volume_reset p).
Proof.
  apply run_instruction_cases in H as [[_ [a Ha]] | [-> _]]; [discriminate Ha|].
  split; [reflexivity|].
  intros p p' Hp Hp'. rewrite Hp in Hp'. injection Hp' as <-. auto.
Qed.

Lemma C3_witness :
  (* the handler resets the volume window of the paused platform, then fails *)
  (match platform c3_world,
         platform (fst (handler (env_at 100000 9) (ExecutePayment 1 2 30) c3_world)) with
   | Some p, Some q => negb (total_volume_24h q =? total_volume_24h p) &&
                       negb (last_volume_reset q =? last_volume_reset p)
   | _, _ => false
   end) = true /\
  run_instruction (env_at 100000 9) (ExecutePayment 1 2 30) c3_world
  = (c3_world, Err (rerr Recurring.SystemPaused)) /\
  c3_world = c3_world.
Proof.
  assert (H : run_instruction (env_at 100000 9) (ExecutePayment 1 2 30) c3_world
              = (c3_world, Err (rerr Recurring.SystemPaused)))
    by (vm_compute; reflexivity).
  split; [vm_compute; reflexivity|].
  split; [exact H | exact (proj1 (C3_all_or_nothing _ _ _ _ _ H))].
Defined.

(* ------------------------------------------------------------------ *)
(* C5: the platform counters                                           *)
(* ------------------------------------------------------------------ *)

(** C5 counterexample: cancel_subscription lowers total_subscriptions, from
    1 to 0, in a reachable state. *)
Lemma C5_counterexample :
  reachable c1_world /\
  (match platform c1_world,
         platform (fst (run_instruction (env_at 6000 1) (CancelSubscription 1 2) c1_world))
   with
   | Some p, Some p' => (total_subscriptions p =? 1) && (total_subscriptions p' =? 0)
   | _, _ => false
   end) = true.
Proof.
  split; [apply reachable_run_all; apply reachable_fresh; exact world0_fresh|].
  vm_compute; reflexivity.
Qed.

(** C5 (as amended).  Once the platform exists every instruction keeps it;
    total_transactions never decreases; total_subscriptions never decreases
    except under cancel_subscription, which sets it to
    total_subscriptions - 1 (saturating at 0). *)
Theorem C5_platform_counters (env : Env) (ix : Instruction) (w : World)
  (p : PlatformState) (Hp : platform w = Some p) :
  exists p', platform (fst (run_instruction env ix w)) = Some p' /\
    total_transactions p <= total_transactions p' /\
    (total_subscriptions p <= total_subscriptions p' \/
     ((exists u m, ix = CancelSubscription u m) /\
      total_subscriptions p' = Z.max 0 (total_subscriptions p - 1))).
Proof.
  destruct (run_instruction env ix w) as [w' r] eqn:E.
  apply run_instruction_cases in E as [[H [a ->]] | [-> _]]; simpl.
  2: { exists p; split; [exact Hp | lia]. }
  destruct w as [pl sb tk rg mc rv]; simpl in Hp; subst pl.
  destruct ix; exec_handler H; injection H as <-; facts; try congruence.
  all: eexists; split; [reflexivity|]; simpl; try lia.
  split; [lia|]. right; split; [eauto | reflexivity].
Qed.

Lemma C5_witness :
  exists p', platform (fst (run_instruction (env_at 6000 1) (CancelSubscription 1 2)
                             c1_world)) = Some p' /\
    (match platform c1_world with
     | Some p => total_transactions p <= total_transactions p'
     | None => False
     end).
Proof.
  destruct (platform c1_world) as [p|] eqn:Hp; [|vm_compute in Hp; discriminate Hp].
  destruct (C5_platform_counters (env_at 6000 1) (CancelSubscription 1 2) c1_world p Hp)
    as [p' [H1 [H2 _]]].
  exists p'. split; [exact H1 | exact H2].
Defined.

(* ------------------------------------------------------------------ *)
(* C10: amounts below the fee                                          *)
(* ------------------------------------------------------------------ *)

(** C10.  Let the subscription and the platform pass every check of
    execute_payment that precedes the fee (the volume window, the pause, the
    lifecycle, the due date, the lifetime cap, the 24-hour volume, the
    variance).  If the clamped fee exceeds the subscription's amount, in
    particular if amount < min_fee <= max_fee with basis points in [1, 500],
    execute_payment fails with InsufficientAmount, before any token
    transfer: the handler's working copy of the token accounts is untouched,
    and the world is unchanged. *)
Theorem C10_insufficient_amount (env : Env) (u m fa : Pubkey) (w : World)
  (s : Subscription) (p : PlatformState)
  (Hs : subs w u m = Some s) (Hok : sub_ok s) (Hp : platform w = Some p)
  (Hwin : I64_MIN <= last_volume_reset p + SECONDS_PER_DAY <= I64_MAX)
  (Hpause : emergency_pause p = false) (Hact : is_active s = true)
  (Hpaused : is_paused s = false) (Hdue : next_payment s <= now env)
  (Hcap : total_paid s + amount s <= Z.min U64_MAX (lifetime_cap s))
  (Hvol : 0 <= (if last_volume_reset p + SECONDS_PER_DAY <=? now env
                then 0 else total_volume_24h p) + amount s
            <= Z.min U64_MAX (daily_volume_limit p))
  (Hfee : (exists fee, calculate_fee (amount s) (fee_basis_points p) (min_fee p)
                         (max_fee p) = Ok fee /\ amount s < fee) \/
          (1 <= fee_basis_points p <= 500 /\ min_fee p <= max_fee p /\
           amount s < min_fee p)) :
  run_instruction env (ExecutePayment u m fa) w
  = (w, Err (rerr Recurring.InsufficientAmount)) /\
  tokens (fst (handler env (ExecutePayment u m fa) w)) = tokens w /\
  snd (handler env (ExecutePayment u m fa) w)
  = Err (rerr Recurring.InsufficientAmount).
Proof.
  unfold sub_ok in Hok.
  assert (Hf : exists fee, calculate_fee (amount s) (fee_basis_points p) (min_fee p)
                             (max_fee p) = Ok fee /\ amount s < fee).
  { destruct Hfee as [Hf | [Hbp [Hm Hlt]]]; [exact Hf|].
    rewrite calculate_fee_no_overflow by (unfold U64_MAX in *; lia).
    eexists; split; [reflexivity | lia]. }
  clear Hfee. destruct Hf as [fee [Hcf Hlt]].
  unfold run_instruction.
  destruct (handler env (ExecutePayment u m fa) w) as [w1 r] eqn:H; simpl.
  destruct w as [pl sb tk rg mc rv]; simpl in Hs, Hp; subst pl.
  destruct (last_volume_reset p + SECONDS_PER_DAY <=? now env) eqn:Ewin in Hvol.
  all: exec_handler H.
  (* the loaded subscription is the one of the hypotheses *)
  all: repeat match goal with Hx : Some _ = Some _ |- _ => injection Hx as Hx; subst end.
  all: repeat match goal with
         | Hx : calculate_fee _ _ _ _ = _ |- _ =>
             tryif constr_eq Hx Hcf then fail else (simpl in Hx; rewrite Hcf in Hx)
         end.
  all: repeat match goal with
         | Hx : calculate_fee _ _ _ _ = _ |- _ =>
             tryif constr_eq Hx Hcf then fail else rewrite Hcf in Hx
         end.
  all: facts; try congruence.
  all: repeat match goal with Hx : Ok _ = Ok _ |- _ => injection Hx as Hx; subst end.
  all: unfold u64_abs_diff in *;
    replace (amount s - original_amount s) with 0 in * by lia; simpl in *.
  all: try (assert (0 <= original_amount s / 10) by (apply Z.div_pos; lia);
            unfold U64_MAX in *; lia).
  all: injection H as <- <-; split; [reflexivity | split; reflexivity].
Qed.

Lemma C10_witness :
  run_instruction (env_at 5000 9) (ExecutePayment 1 2 30) c10_world
  = (c10_world, Err (rerr Recurring.InsufficientAmount)).
Proof.
  destruct (subs c10_world 1 2) as [s|] eqn:Hs; [|vm_compute in Hs; discriminate Hs].
  destruct (platform c10_world) as [p|] eqn:Hp; [|vm_compute in Hp; discriminate Hp].
  pose proof Hs as Es. pose proof Hp as Ep.
  vm_compute in Es, Ep. injection Es as <-. injection Ep as <-.
  refine (proj1 (C10_insufficient_amount (env_at 5000 9) 1 2 30 c10_world _ _
                   Hs _ Hp _ _ _ _ _ _ _ _)).
  all: unfold sub_ok, I64_MIN, I64_MAX, U64_MAX, SECONDS_PER_DAY; simpl;
    try reflexivity; lia.
Defined.

(* ------------------------------------------------------------------ *)
(* C2: payments and the merchant's trust record                        *)
(* ------------------------------------------------------------------ *)

(** C2, at the failing input.  lutrii-recurring never invokes the
    registry's record_transaction: every successful execute_payment leaves
    the merchant records, the registry and the reviews as they were.  In the
    reachable state c2_world, where owner 2 has a Verified merchant record and
    user 1 a due subscription to merchant 2, execute_payment at time 5000
    succeeds, yet merchant 2's total_transactions, total_volume and
    community_score stay as they were. *)
Theorem C2_payment_not_reported :
  (forall env u m fa w w',
     run_instruction env (ExecutePayment u m fa) w = (w', Ok tt) ->
     merchants w' = merchants w /\ registry w' = registry w /\
     reviews w' = reviews w) /\
  reachable c2_world /\
  snd (run_instruction (env_at 5000 9) (ExecutePayment 1 2 30) c2_world) = Ok tt /\
  (match merchants c2_world 2,
         merchants (fst (run_instruction (env_at 5000 9) (ExecutePayment 1 2 30)
                           c2_world)) 2 with
   | Some mr, Some mr' => (m_total_transactions mr' =? m_total_transactions mr) &&
                          (total_volume mr' =? total_volume mr) &&
                          (community_score mr' =? community_score mr)
   | _, _ => false
   end) = true.
Proof.
  split.
  - intros env u m fa w w' Hr.
    apply run_instruction_cases in Hr as [[H _] | [_ [e He]]]; [|discriminate He].
    destruct w as [pl sb tk rg mc rv].
    exec_handler H. all: injection H as <-; repeat split.
  - split; [apply reachable_run_all; apply reachable_fresh; exact world0_fresh|].
    split; vm_compute; reflexivity.
Qed.

Lemma C2_witness :
  run_instruction (env_at 5000 9) (ExecutePayment 1 2 30) c2_world
  = (fst (run_instruction (env_at 5000 9) (ExecutePayment 1 2 30) c2_world), Ok tt) /\
  merchants (fst (run_instruction (env_at 5000 9) (ExecutePayment 1 2 30) c2_world))
  = merchants c2_world.
Proof.
  assert (H : run_instruction (env_at 5000 9) (ExecutePayment 1 2 30) c2_world
              = (fst (run_instruction (env_at 5000 9) (ExecutePayment 1 2 30) c2_world),
                 Ok tt)) by (vm_compute; reflexivity).
  split; [exact H | exact (proj1 (proj1 C2_payment_not_reported _ _ _ _ _ _ H))].
Defined.

(* ------------------------------------------------------------------ *)
(* C6: the Community tier                                              *)
(* ------------------------------------------------------------------ *)

Lemma tier_eqb_true a b : tier_eqb a b = true -> a = b.
Proof. destruct a, b; simpl; congruence. Qed.

Lemma tier_eqb_false a b : tier_eqb a b = false -> a <> b.
Proof. destruct a, b; simpl; congruence. Qed.

(* Merchant records loaded twice are the same; tier tests become equations. *)
Ltac merchant_facts :=
  repeat match goal with
         | H1 : ?f ?x = Some _, H2 : ?f ?x = Some _ |- _ =>
             rewrite H1 in H2; injection H2 as H2; subst
         | H : Some _ = Some _ |- _ => injection H as H; subst
         | H : tier_eqb _ _ = true |- _ => apply tier_eqb_true in H
         | H : tier_eqb _ _ = false |- _ => apply tier_eqb_false in H
         | H : (_ && _) = false |- _ => apply andb_false_iff in H; destruct H
         | H : (_ <=? _) = false |- _ => apply Z.leb_gt in H
         | H : (_ <? _) = false |- _ => apply Z.ltb_ge in H
         | H : (_ =? _) = false |- _ => apply Z.eqb_neq in H
         end.

(** C6.  Community is reached only by the automatic promotion of
    record_transaction: approve_merchant with tier Community always fails
    (and changes nothing); for a Verified merchant, a successful
    record_transaction leaves it Community exactly when, after the report's
    counter updates, total_transactions >= 100, community_score >= 1000 and
    failed_transactions < 5; and a merchant record that is Community after
    any instruction was Community before it, or was Verified and the
    instruction is record_transaction for it. *)
Theorem C6_community_by_promotion_only :
  (forall env o w,
     exists e, run_instruction env (ApproveMerchant o Community) w = (w, Err e)) /\
  (forall env o a ok w w' mr mr',
     merchants w o = Some mr -> verification_tier mr = Verified ->
     run_instruction env (RecordTransaction o a ok) w = (w', Ok tt) ->
     merchants w' o = Some mr' ->
     (verification_tier mr' = Community <->
      100 <= m_total_transactions mr' /\ 1000 <= community_score mr' /\
      failed_transactions mr' < 5)) /\
  (forall env ix w o mr',
     merchants (fst (run_instruction env ix w)) o = Some mr' ->
     verification_tier mr' = Community ->
     exists mr, merchants w o = Some mr /\
       (verification_tier mr = Community \/
        (verification_tier mr = Verified /\ exists a ok, ix = RecordTransaction o a ok))).
Proof.
  split; [|split].
  - intros env o w. unfold run_instruction.
    destruct (handler env (ApproveMerchant o Community) w) as [w1 [x|e]] eqn:H; eauto.
    exfalso. exec_handler H.
  - intros env o a ok w w' mr mr' Hm Ht Hr Hm'.
    apply run_instruction_cases in Hr as [[H _] | [_ [e He]]]; [|discriminate He].
    destruct w as [pl sb tk rg mc rv]; simpl in Hm.
    exec_handler H; injection H as <-; simpl in Hm'; split_upd Hm'; facts;
      merchant_facts; simpl in *; try congruence.
    all: rewrite ?Ht; split; intros HC; try discriminate HC; try reflexivity; lia.
  - intros env ix w o mr' Hm' Ht.
    destruct (run_instruction env ix w) as [w' r] eqn:E.
    apply run_instruction_cases in E as [[H [x ->]] | [-> _]]; simpl in Hm'.
    2: { eauto. }
    destruct w as [pl sb tk rg mc rv]; simpl.
    destruct ix; exec_handler H; injection H as <-; simpl in Hm'; split_upd Hm';
      facts; merchant_facts; simpl in *; try congruence.
    all: try (eexists; split; [eassumption | left; assumption]).
    all: eexists; split; [eassumption | right; split; [assumption | eauto]].
Qed.

Lemma C6_witness :
  exists mr', merchants (fst (run_instruction (env_after_recurring 3000 9)
                               (RecordTransaction 2 500 true) c6_world)) 2 = Some mr' /\
              verification_tier mr' = Community.
Proof.
  assert (H : run_instruction (env_after_recurring 3000 9) (RecordTransaction 2 500 true)
                c6_world
              = (fst (run_instruction (env_after_recurring 3000 9)
                        (RecordTransaction 2 500 true) c6_world), Ok tt))
    by (vm_compute; reflexivity).
  destruct (merchants (fst (run_instruction (env_after_recurring 3000 9)
                              (RecordTransaction 2 500 true) c6_world)) 2)
    as [mr'|] eqn:E; [|vm_compute in E; discriminate E].
  exists mr'. split; [reflexivity|].
  assert (Hm : merchants c6_world 2 = Some c6_merchant) by reflexivity.
  assert (Ht : verification_tier c6_merchant = Verified) by reflexivity.
  apply (proj2 (proj1 (proj2 C6_community_by_promotion_only)
                  (env_after_recurring 3000 9) 2 500 true c6_world _ c6_merchant mr'
                  Hm Ht H E)).
  vm_compute in E. injection E as <-. simpl. lia.
Defined.

(* A successful instruction is a successful handler run. *)
Lemma run_ok env ix w w' a :
  run_instruction env ix w = (w', Ok a) -> handler env ix w = (w', Ok a).
Proof.
  unfold run_instruction. destruct (handler env ix w) as [w1 [b|e]]; intros H;
    inversion H; subst; reflexivity.
Qed.

(* ------------------------------------------------------------------ *)
(* C7: the review gate                                                 *)
(* ------------------------------------------------------------------ *)

(** C7.  submit_review fails, changing nothing, whenever the reviewer's
    subscription to the merchant is inactive, or has payment_count < 3, or
    total_paid < 1_000_000, or was created less than 7 days before, whatever
    the rating and the comment; a second review of the same merchant by the
    same reviewer fails, changing nothing; and no instruction changes or
    removes a stored review. *)
Theorem C7_review_gate :
  (forall env o rating_ comment_ w s,
     subs w (signer env) o = Some s ->
     is_active s = false \/ payment_count s < 3 \/ total_paid s < 1000000 \/
     now env - created_at s < MIN_SUBSCRIPTION_AGE_SECONDS ->
     exists e, run_instruction env (SubmitReview o rating_ comment_) w = (w, Err e)) /\
  (forall env o rating_ comment_ w v,
     reviews w o (signer env) = Some v ->
     exists e, run_instruction env (SubmitReview o rating_ comment_) w = (w, Err e)) /\
  (forall env ix w o r v,
     reviews w o r = Some v -> reviews (fst (run_instruction env ix w)) o r = Some v).
Proof.
  split; [|split].
  - intros env o rating_ comment_ w s Hs Hbad. unfold run_instruction.
    destruct (handler env (SubmitReview o rating_ comment_) w) as [w1 [x|e]] eqn:H;
      [exfalso | eauto].
    destruct w as [pl sb tk rg mc rv]; simpl in Hs.
    exec_handler H.
  - intros env o rating_ comment_ w v Hv. unfold run_instruction.
    destruct (handler env (SubmitReview o rating_ comment_) w) as [w1 [x|e]] eqn:H;
      [exfalso | eauto].
    destruct w as [pl sb tk rg mc rv]; simpl in Hv.
    exec_handler H.
  - intros env ix w o r v Hv.
    destruct (run_instruction env ix w) as [w' x] eqn:E.
    apply run_instruction_cases in E as [[H _] | [-> _]]; simpl; [|exact Hv].
    destruct w as [pl sb tk rg mc rv]; simpl in Hv.
    destruct ix; exec_handler H; injection H as <-; simpl; try exact Hv.
Qed.

Lemma C7_witness :
  exists e, run_instruction (env_at 700000 1) (SubmitReview 2 5 "great") c2_world
            = (c2_world, Err e).
Proof.
  destruct (subs c2_world 1 2) as [s|] eqn:Hs; [|vm_compute in Hs; discriminate Hs].
  pose proof Hs as Es. vm_compute in Es. injection Es as <-.
  apply (proj1 C7_review_gate (env_at 700000 1) 2 5 "great"%string c2_world _ Hs).
  right; left; simpl; lia.
Defined.

(* ------------------------------------------------------------------ *)
(* C4: suspension after a score change                                 *)
(* ------------------------------------------------------------------ *)

(** C4.  Every score mutation is followed by the suspension rule: after a
    successful record_transaction or submit_review for merchant o, or any
    successful instruction that changes o's community_score, a stored record
    of o with community_score < -100 is Suspended and has no active premium
    badge.  (record_transaction applies the rule last; the other
    instructions leave the score as it was, and submit_review never
    succeeds, its subscription account being owned by lutrii-recurring.) *)
Theorem C4_score_mutation_suspends (env : Env) (ix : Instruction) (w w' : World)
  (o : Pubkey) (mr' : Merchant)
  (Hmut : (exists a ok, ix = RecordTransaction o a ok) \/
          (exists rt c, ix = SubmitReview o rt c) \/
          (exists mr, merchants w o = Some mr /\ community_score mr <> community_score mr'))
  (H : run_instruction env ix w = (w', Ok tt))
  (Hm : merchants w' o = Some mr')
  (Hlow : community_score mr' < -100) :
  verification_tier mr' = Suspended /\ premium_badge_active mr' = false.
Proof.
  apply run_ok in H. rename H into Hh.
  destruct w as [pl sb tk rg mc rv]; simpl in Hmut.
  destruct ix; exec_handler Hh; injection Hh as <-; simpl in Hm; split_upd Hm;
    facts; merchant_facts; simpl in *.
  all: try (split; reflexivity).
  all: try (exfalso; lia).
  all: destruct Hmut as [[? [? Hx]] | [[? [? Hx]] | [? [Hx Hy]]]]; try discriminate Hx.
  all: try (injection Hx as <- <- <-).
  all: merchant_facts; simpl in *; try congruence; lia.
Qed.

Lemma C4_witness :
  snd (run_instruction (env_after_recurring 605801 9) (RecordTransaction 2 0 false)
         c4_world) = Ok tt /\
  exists mr', merchants (fst (run_instruction (env_after_recurring 605801 9)
                                (RecordTransaction 2 0 false) c4_world)) 2 = Some mr' /\
    community_score mr' = -125 /\ verification_tier mr' = Suspended /\
    premium_badge_active mr' = false.
Proof.
  assert (E : run_instruction (env_after_recurring 605801 9) (RecordTransaction 2 0 false)
                c4_world
              = (fst (run_instruction (env_after_recurring 605801 9)
                        (RecordTransaction 2 0 false) c4_world), Ok tt))
    by (vm_compute; reflexivity).
  split; [rewrite E; reflexivity|].
  destruct (merchants (fst (run_instruction (env_after_recurring 605801 9)
                              (RecordTransaction 2 0 false) c4_world)) 2)
    as [mr'|] eqn:Hm; [|vm_compute in Hm; discriminate Hm].
  assert (Hs : community_score mr' = -125)
    by (pose proof Hm as Hm2; vm_compute in Hm2; injection Hm2 as <-; reflexivity).
  exists mr'. split; [reflexivity|]. split; [exact Hs|].
  exact (C4_score_mutation_suspends (env_after_recurring 605801 9)
           (RecordTransaction 2 0 false) c4_world _ 2 mr'
           (or_introl (ex_intro _ 0 (ex_intro _ false eq_refl))) E Hm
           ltac:(rewrite Hs; lia)).
Defined.

(* ------------------------------------------------------------------ *)
(* Further properties of the two programs                             *)
(* ------------------------------------------------------------------ *)

Lemma reachable_c1_world : reachable c1_world.
Proof. apply reachable_run_all; apply reachable_fresh; exact world0_fresh. Qed.

Lemma handler_platform_inv env ix w w' a :
  platform_inv w -> handler env ix w = (w', Ok a) -> platform_inv w'.
Proof.
  intros Hinv H. destruct w as [pl sb tk rg mc rv].
  assert (Hp0 : forall p, pl = Some p ->
    MIN_FEE_BASIS_POINTS <= fee_basis_points p <= MAX_FEE_BASIS_POINTS /\
    min_fee p = 10000 /\ max_fee p = 500000 /\ failed_tx_count p = 0 /\
    0 <= total_volume_24h p <= Z.max 0 (daily_volume_limit p)) by exact Hinv.
  clear Hinv.
  destruct pl as [p0|]; [pose proof (Hp0 p0 eq_refl) as Hi; clear Hp0|].
  all: destruct ix; exec_handler H; injection H as <-; intros p' Hp'; simpl in Hp';
    try discriminate Hp'; try (injection Hp' as <-); facts; simpl; try exact Hi.
  all: unfold MIN_FEE_BASIS_POINTS, MAX_FEE_BASIS_POINTS in *; simpl in *; lia.
Qed.

Lemma reachable_platform_inv w : reachable w -> platform_inv w.
Proof.
  induction 1 as [w [Hp _] | env ix w _ IH].
  - intros p H. rewrite Hp in H. discriminate.
  - destruct (run_instruction env ix w) as [w' r] eqn:E.
    apply run_instruction_cases in E as [[E [a ->]] | [-> _]]; simpl; auto.
    eapply handler_platform_inv; eauto.
Qed.

Lemma handler_keys_ok env ix w w' a :
  keys_ok w -> handler env ix w = (w', Ok a) -> keys_ok w'.
Proof.
  intros [Hs0 [Hm0 Hr0]] H.
  destruct ix; exec_handler H; injection H as <-; refine (conj _ (conj _ _));
    intros; match goal with Hs : _ = Some _ |- _ => simpl in Hs; split_upd Hs end;
    facts; eauto; try congruence; simpl.
  all: try (eapply Hs0; eassumption); try (eapply Hm0; eassumption); try (eapply Hr0; eassumption).
Qed.

Lemma reachable_keys_ok w : reachable w -> keys_ok w.
Proof.
  induction 1 as [w [_ [Hs [_ [Hm Hr]]]] | env ix w _ IH].
  - refine (conj _ (conj _ _)); intros *; [rewrite Hs | rewrite Hm | rewrite Hr];
      discriminate.
  - destruct (run_instruction env ix w) as [w' r] eqn:E.
    apply run_instruction_cases in E as [[E [a ->]] | [-> _]]; simpl; auto.
    eapply handler_keys_ok; eauto.
Qed.

(* ==== EXTRAS ==== *)

(** X1.  Once the platform account exists, no instruction removes it or
    changes its authority, daily_volume_limit, fee_basis_points, min_fee or
    max_fee. *)
Theorem platform_config_fixed (env : Env) (ix : Instruction) (w : World)
  (p : PlatformState) (Hp : platform w = Some p) :
  exists p', platform (fst (run_instruction env ix w)) = Some p' /\
    authority p' = authority p /\ daily_volume_limit p' = daily_volume_limit p /\
    fee_basis_points p' = fee_basis_points p /\ min_fee p' = min_fee p /\
    max_fee p' = max_fee p.
Proof.
  destruct (run_instruction env ix w) as [w' r] eqn:E.
  apply run_instruction_cases in E as [[H [a ->]] | [-> _]]; simpl.
  2: { exists p; repeat split; exact Hp. }
  destruct w as [pl sb tk rg mc rv]; simpl in Hp; subst pl.
  destruct ix; exec_handler H; injection H as <-; facts; try congruence.
  all: eexists; split; [reflexivity|]; simpl; repeat split.
Qed.

Lemma platform_config_fixed_witness :
  exists p', platform (fst (run_instruction (env_at 6000 7) EmergencyPause c1_world))
             = Some p' /\ fee_basis_points p' = 1.
Proof.
  destruct (platform c1_world) as [p|] eqn:Hp; [|vm_compute in Hp; discriminate Hp].
  pose proof Hp as Ep. vm_compute in Ep. injection Ep as <-.
  destruct (platform_config_fixed (env_at 6000 7) EmergencyPause c1_world _ Hp)
    as [p' [H1 [_ [_ [H2 _]]]]].
  exists p'. split; [exact H1 | exact H2].
Defined.

(** X2.  In every reachable state the platform's fee configuration is the
    one initialize_platform validates and writes: fee_basis_points in
    [1, 500], min_fee = 10_000 and max_fee = 500_000. *)
Theorem reachable_fee_config (w : World) (Hw : reachable w) (p : PlatformState)
  (Hp : platform w = Some p) :
  1 <= fee_basis_points p <= 500 /\ min_fee p = 10000 /\ max_fee p = 500000.
Proof.
  destruct (reachable_platform_inv w Hw p Hp) as [H1 [H2 [H3 _]]].
  unfold MIN_FEE_BASIS_POINTS, MAX_FEE_BASIS_POINTS in H1. auto.
Qed.

Lemma reachable_fee_config_witness :
  exists p, platform c1_world = Some p /\ min_fee p = 10000.
Proof.
  destruct (platform c1_world) as [p|] eqn:Hp; [|vm_compute in Hp; discriminate Hp].
  exists p. split; [reflexivity|].
  exact (proj1 (proj2 (reachable_fee_config c1_world reachable_c1_world p Hp))).
Defined.

(** X3.  No instruction ever increments the platform's failed_tx_count: in
    every reachable state it is 0 (initialize_platform writes 0 and
    emergency_unpause writes 0; nothing else assigns it). *)
Theorem reachable_failed_tx_count_zero (w : World) (Hw : reachable w)
  (p : PlatformState) (Hp : platform w = Some p) :
  failed_tx_count p = 0.
Proof.
  destruct (reachable_platform_inv w Hw p Hp) as [_ [_ [_ [H _]]]]. exact H.
Qed.

Lemma reachable_failed_tx_count_zero_witness :
  exists p, platform c1_world = Some p /\ failed_tx_count p = 0.
Proof.
  destruct (platform c1_world) as [p|] eqn:Hp; [|vm_compute in Hp; discriminate Hp].
  exists p. split; [reflexivity|].
  exact (reachable_failed_tx_count_zero c1_world reachable_c1_world p Hp).
Defined.

(** X4.  In every reachable state the platform's 24-hour volume is
    non-negative and never above daily_volume_limit (when that limit is
    non-negative): execute_payment only stores a volume it has checked
    against the limit, and the resets store 0. *)
Theorem reachable_volume_within_limit (w : World) (Hw : reachable w)
  (p : PlatformState) (Hp : platform w = Some p) :
  0 <= total_volume_24h p <= Z.max 0 (daily_volume_limit p).
Proof.
  destruct (reachable_platform_inv w Hw p Hp) as [_ [_ [_ [_ H]]]]. exact H.
Qed.

Lemma reachable_volume_within_limit_witness :
  exists p, platform c1_world = Some p /\
    0 <= total_volume_24h p <= Z.max 0 (daily_volume_limit p).
Proof.
  destruct (platform c1_world) as [p|] eqn:Hp; [|vm_compute in Hp; discriminate Hp].
  exists p. split; [reflexivity|].
  exact (reachable_volume_within_limit c1_world reachable_c1_world p Hp).
Defined.

(** X5.  In every reachable state a subscription stored under the seeds
    (u, m) has user = u and merchant = m. *)
Theorem reachable_subscription_keys (w : World) (Hw : reachable w)
  (u m : Pubkey) (s : Subscription) (Hs : subs w u m = Some s) :
  user s = u /\ merchant s = m.
Proof. exact (proj1 (reachable_keys_ok w Hw) u m s Hs). Qed.

Lemma reachable_subscription_keys_witness :
  exists s, subs c1_world 1 2 = Some s /\ user s = 1 /\ merchant s = 2.
Proof.
  destruct (subs c1_world 1 2) as [s|] eqn:Hs; [|vm_compute in Hs; discriminate Hs].
  exists s. split; [reflexivity|].
  exact (reachable_subscription_keys c1_world reachable_c1_world 1 2 s Hs).
Defined.

(** X6.  In every reachable state a merchant record stored under the seed
    o has owner = o, and a review stored under (merchant o, reviewer r)
    has rv_merchant = o and rv_reviewer = r. *)
Theorem reachable_registry_keys (w : World) (Hw : reachable w) :
  (forall o mr, merchants w o = Some mr -> owner mr = o) /\
  (forall o r v, reviews w o r = Some v -> rv_merchant v = o /\ rv_reviewer v = r).
Proof. exact (proj2 (reachable_keys_ok w Hw)). Qed.


Lemma spl_transfer_ok t from to_ auth amt t' :
  spl_transfer t from to_ auth amt = Ok t' -> from <> to_ ->
  tok_amount (t' from) = tok_amount (t from) - amt /\
  tok_amount (t' to_) = tok_amount (t to_) + amt /\
  (forall k, k <> from -> k <> to_ -> t' k = t k) /\
  (authority_eqb auth (Wallet (tok_owner (t from))) = false ->
   tok_delegated_amount (t' from) = tok_delegated_amount (t from) - amt).
Proof.
  unfold spl_transfer. cbv zeta. intros H Hne.
  assert (N1 : (from =? to_) = false) by (apply Z.eqb_neq; exact Hne).
  assert (N2 : (to_ =? from) = false) by (apply Z.eqb_neq; congruence).
  rewrite N1 in H.
  destruct (tok_amount (t from) <? amt) eqn:E1; [discriminate|].
  destruct (tok_delegate (t from)) as [d|] eqn:Ed;
    [destruct (authority_eqb auth d) eqn:Ea;
       [destruct (tok_delegated_amount (t from) <? amt); [discriminate|]|]|].
  all: try destruct (authority_eqb auth (Wallet (tok_owner (t from)))) eqn:Eo;
    try discriminate.
  all: unfold upd1 in H; rewrite N2 in H; simpl in H.
  all: destruct (u64_checked_add (tok_amount (t to_)) amt) as [v|] eqn:Ev;
    [|discriminate].
  all: unfold u64_checked_add in Ev; apply checked_Some in Ev as [-> _].
  all: injection H as <-; unfold upd1; rewrite N1, N2, !Z.eqb_refl; simpl.
  all: split; [reflexivity|]; split; [reflexivity|]; split;
    [intros k Hk1 Hk2; rewrite (proj2 (Z.eqb_neq k to_) Hk2),
       (proj2 (Z.eqb_neq k from) Hk1); reflexivity|].
  all: intros Ho; try reflexivity; congruence.
Qed.

Lemma calculate_fee_nonneg a b mn mx fee :
  calculate_fee a b mn mx = Ok fee -> 0 <= mx -> 0 <= fee.
Proof.
  unfold calculate_fee.
  destruct (u128_checked_mul a b); [|discriminate].
  destruct (u_checked_div z BASIS_POINTS_DIVISOR); [|discriminate].
  destruct (u64_try_from z0) eqn:E; [|discriminate].
  unfold u64_try_from in E. apply checked_Some in E.
  intros H; injection H as <-. lia.
Qed.

(** X7.  A successful execute_payment moves the subscription amount out of
    the user's token account and consumes as much of its delegated
    allowance; the merchant's account receives the amount minus the fee
    computed by calculate_fee and the fee wallet receives the fee; no other
    token account changes. *)
Theorem execute_payment_token_flow (env : Env) (u m fa : Pubkey) (w w' : World)
  (s : Subscription) (p : PlatformState)
  (Hs : subs w u m = Some s) (Hp : platform w = Some p)
  (Hd1 : user_token_account s <> merchant_token_account s)
  (Hd2 : user_token_account s <> fa) (Hd3 : merchant_token_account s <> fa)
  (Hmax : 0 <= max_fee p)
  (H : run_instruction env (ExecutePayment u m fa) w = (w', Ok tt)) :
  exists fee,
    calculate_fee (amount s) (fee_basis_points p) (min_fee p) (max_fee p) = Ok fee /\
    tok_amount (tokens w' (user_token_account s))
      = tok_amount (tokens w (user_token_account s)) - amount s /\
    tok_delegated_amount (tokens w' (user_token_account s))
      = tok_delegated_amount (tokens w (user_token_account s)) - amount s /\
    tok_amount (tokens w' (merchant_token_account s))
      = tok_amount (tokens w (merchant_token_account s)) + (amount s - fee) /\
    tok_amount (tokens w' fa) = tok_amount (tokens w fa) + fee /\
    (forall k, k <> user_token_account s -> k <> merchant_token_account s -> k <> fa ->
       tokens w' k = tokens w k).
Proof.
  apply run_ok in H. destruct w as [pl sb tk rg mc rv]; simpl in Hs, Hp; subst pl.
  exec_handler H.
  all: repeat match goal with Hx : Some _ = Some _ |- _ => injection Hx as Hx; subst end.
  all: injection H as <-; simpl; facts.
  all: match goal with Hx : calculate_fee _ _ _ _ = Ok ?f |- _ =>
         exists f; split; [exact Hx|];
         pose proof (calculate_fee_nonneg _ _ _ _ _ Hx Hmax) end.
  all: apply spl_transfer_ok in Heqr0 as [A1 [A2 [A3 A4]]]; [|exact Hd1].
  all: specialize (A4 eq_refl).
  all: try (apply spl_transfer_ok in Heqr1 as [B1 [B2 [B3 B4]]]; [|exact Hd2]).
  all: try specialize (B4 eq_refl).
  all: try (rewrite B1, B4, B2, (B3 (merchant_token_account s)) by congruence;
            split; [lia|]; split; [lia|]; split; [lia|];
            split; [rewrite (A3 fa) by congruence; lia|];
            intros k K1 K2 K3; rewrite B3, A3 by congruence; reflexivity).
  all: assert (a = 0) by lia; subst a.
  all: split; [lia|]; split; [lia|]; split; [lia|].
  all: split; [try rewrite (A3 fa) by congruence; lia|].
  all: intros k K1 K2 K3; rewrite A3 by congruence; reflexivity.
Qed.

Lemma execute_payment_success env u m fa w w' s :
  subs w u m = Some s -> handler env (ExecutePayment u m fa) w = (w', Ok tt) ->
  exists p, platform w = Some p /\ emergency_pause p = false /\
    is_active s = true /\ is_paused s = false /\ next_payment s <= now env /\
    subs w' u m = Some (set_payment_count
                          (set_paid s (now env) (now env + frequency_seconds s)
                             (total_paid s + amount s)) (payment_count s + 1)) /\
    exists p', platform w' = Some p' /\
      total_transactions p' = total_transactions p + 1 /\ emergency_pause p' = false.
Proof.
  intros Hs H. destruct w as [pl sb tk rg mc rv]; simpl in Hs.
  exec_handler H.
  all: repeat match goal with Hx : Some _ = Some _ |- _ => injection Hx as Hx; subst end.
  all: injection H as <-; facts.
  all: eexists; split; [reflexivity|]; simpl.
  all: unfold upd2; rewrite !Z.eqb_refl; simpl.
  all: repeat split; auto; try lia.
  all: eexists; split; [reflexivity|]; simpl; auto.
Qed.

Lemma execute_payment_token_flow_witness :
  exists fee, calculate_fee 5000000 1 10000 500000 = Ok fee /\
    tok_amount (tokens (fst (run_instruction (env_at 5000 9) (ExecutePayment 1 2 30)
                               c2_world)) 30) = tok_amount (tokens c2_world 30) + fee.
Proof.
  destruct (subs c2_world 1 2) as [s|] eqn:Hs; [|vm_compute in Hs; discriminate Hs].
  destruct (platform c2_world) as [p|] eqn:Hp; [|vm_compute in Hp; discriminate Hp].
  pose proof Hs as Es. pose proof Hp as Ep. vm_compute in Es, Ep.
  injection Es as <-. injection Ep as <-.
  assert (Hr : snd (run_instruction (env_at 5000 9) (ExecutePayment 1 2 30) c2_world)
               = Ok tt) by (vm_compute; reflexivity).
  destruct (run_instruction (env_at 5000 9) (ExecutePayment 1 2 30) c2_world)
    as [w' r] eqn:E; simpl in Hr; subst r.
  destruct (execute_payment_token_flow (env_at 5000 9) 1 2 30 c2_world w' _ _ Hs Hp
              ltac:(simpl; lia) ltac:(simpl; lia) ltac:(simpl; lia) ltac:(simpl; lia) E)
    as [fee [Hf [_ [_ [_ [H5 _]]]]]].
  exists fee. split; [exact Hf | exact H5].
Defined.

(** X8.  execute_payment never succeeds while the platform is in emergency
    pause, nor for a subscription that is inactive or paused, nor before
    the subscription's next_payment time. *)
Theorem execute_payment_preconditions (env : Env) (u m fa : Pubkey) (w w' : World)
  (s : Subscription) (p : PlatformState)
  (Hs : subs w u m = Some s) (Hp : platform w = Some p)
  (H : run_instruction env (ExecutePayment u m fa) w = (w', Ok tt)) :
  emergency_pause p = false /\ is_active s = true /\ is_paused s = false /\
  next_payment s <= now env.
Proof.
  apply run_ok in H.
  destruct (execute_payment_success env u m fa w w' s Hs H)
    as [p0 [Hp0 [H1 [H2 [H3 [H4 _]]]]]].
  rewrite Hp in Hp0. injection Hp0 as <-. auto.
Qed.

Lemma execute_payment_preconditions_witness :
  exists s, subs c2_world 1 2 = Some s /\ next_payment s <= 5000.
Proof.
  destruct (subs c2_world 1 2) as [s|] eqn:Hs; [|vm_compute in Hs; discriminate Hs].
  destruct (platform c2_world) as [p|] eqn:Hp; [|vm_compute in Hp; discriminate Hp].
  assert (Hr : snd (run_instruction (env_at 5000 9) (ExecutePayment 1 2 30) c2_world)
               = Ok tt) by (vm_compute; reflexivity).
  destruct (run_instruction (env_at 5000 9) (ExecutePayment 1 2 30) c2_world)
    as [w' r] eqn:E; simpl in Hr; subst r.
  exists s. split; [reflexivity|].
  exact (proj2 (proj2 (proj2
    (execute_payment_preconditions (env_at 5000 9) 1 2 30 c2_world w' s p Hs Hp E)))).
Defined.

(** X9.  A successful execute_payment records the payment: the stored
    subscription gets last_payment = now, next_payment = now +
    frequency_seconds, total_paid increased by amount and payment_count
    increased by 1, its other fields unchanged; the platform's
    total_transactions increases by 1. *)
Theorem execute_payment_records (env : Env) (u m fa : Pubkey) (w w' : World)
  (s : Subscription) (p : PlatformState)
  (Hs : subs w u m = Some s) (Hp : platform w = Some p)
  (H : run_instruction env (ExecutePayment u m fa) w = (w', Ok tt)) :
  subs w' u m = Some (set_payment_count
                        (set_paid s (now env) (now env + frequency_seconds s)
                           (total_paid s + amount s)) (payment_count s + 1)) /\
  exists p', platform w' = Some p' /\ total_transactions p' = total_transactions p + 1.
Proof.
  apply run_ok in H.
  destruct (execute_payment_success env u m fa w w' s Hs H)
    as [p0 [Hp0 [_ [_ [_ [_ [Hs' [p' [Hp' [Htx _]]]]]]]]]].
  rewrite Hp in Hp0. injection Hp0 as <-.
  split; [exact Hs' | exists p'; split; assumption].
Qed.

Lemma execute_payment_records_witness :
  exists s', subs (fst (run_instruction (env_at 5000 9) (ExecutePayment 1 2 30) c2_world))
               1 2 = Some s' /\ payment_count s' = 1 /\ next_payment s' = 8600.
Proof.
  destruct (subs c2_world 1 2) as [s|] eqn:Hs; [|vm_compute in Hs; discriminate Hs].
  destruct (platform c2_world) as [p|] eqn:Hp; [|vm_compute in Hp; discriminate Hp].
  pose proof Hs as Es. vm_compute in Es. injection Es as <-.
  assert (Hr : snd (run_instruction (env_at 5000 9) (ExecutePayment 1 2 30) c2_world)
               = Ok tt) by (vm_compute; reflexivity).
  destruct (run_instruction (env_at 5000 9) (ExecutePayment 1 2 30) c2_world)
    as [w' r] eqn:E; simpl in Hr; subst r. simpl.
  eexists; split;
    [exact (proj1 (execute_payment_records (env_at 5000 9) 1 2 30 c2_world w' _ p Hs Hp E))
    | split; reflexivity].
Defined.

(** X10.  At most one payment per period: after a successful execute_payment
    at time t, every execute_payment of the same subscription at a time
    before t + frequency_seconds fails and changes nothing. *)
Theorem execute_payment_once_per_period (env1 env2 : Env) (u m fa1 fa2 : Pubkey)
  (w w1 : World) (s : Subscription) (Hs : subs w u m = Some s)
  (H1 : run_instruction env1 (ExecutePayment u m fa1) w = (w1, Ok tt))
  (Hlt : now env2 < now env1 + frequency_seconds s) :
  exists e, run_instruction env2 (ExecutePayment u m fa2) w1 = (w1, Err e).
Proof.
  apply run_ok in H1.
  destruct (execute_payment_success env1 u m fa1 w w1 s Hs H1)
    as [_ [_ [_ [_ [_ [_ [Hs1 _]]]]]]].
  destruct (run_instruction env2 (ExecutePayment u m fa2) w1) as [w2 r] eqn:E.
  apply run_instruction_cases in E as [[E [[] ->]] | [-> [e ->]]]; [|eauto].
  destruct (execute_payment_success env2 u m fa2 w1 w2 _ Hs1 E)
    as [_ [_ [_ [_ [_ [Hdue _]]]]]].
  simpl in Hdue. lia.
Qed.

Lemma execute_payment_once_per_period_witness :
  exists e, run_instruction (env_at 8000 9) (ExecutePayment 1 2 30)
              (fst (run_instruction (env_at 5000 9) (ExecutePayment 1 2 30) c2_world))
            = (fst (run_instruction (env_at 5000 9) (ExecutePayment 1 2 30) c2_world),
               Err e).
Proof.
  destruct (subs c2_world 1 2) as [s|] eqn:Hs; [|vm_compute in Hs; discriminate Hs].
  pose proof Hs as Es. vm_compute in Es. injection Es as <-.
  assert (Hr : snd (run_instruction (env_at 5000 9) (ExecutePayment 1 2 30) c2_world)
               = Ok tt) by (vm_compute; reflexivity).
  destruct (run_instruction (env_at 5000 9) (ExecutePayment 1 2 30) c2_world)
    as [w' r] eqn:E; simpl in Hr; subst r. simpl.
  exact (execute_payment_once_per_period (env_at 5000 9) (env_at 8000 9) 1 2 30 30
           c2_world w' _ Hs E ltac:(simpl; lia)).
Defined.

Lemma spl_revoke_ok t acct o t' :
  spl_revoke t acct o = Ok t' ->
  tok_owner (t acct) = o /\ tok_delegate (t' acct) = None /\
  tok_delegated_amount (t' acct) = 0 /\ tok_amount (t' acct) = tok_amount (t acct) /\
  (forall k, k <> acct -> t' k = t k).
Proof.
  unfold spl_revoke. destruct (negb _) eqn:E; [discriminate|].
  apply negb_false_iff, Z.eqb_eq in E.
  intros H; injection H as <-. unfold upd1. rewrite Z.eqb_refl.
  repeat split; auto.
  intros k Hk. rewrite (proj2 (Z.eqb_neq k acct) Hk). reflexivity.
Qed.

Lemma spl_approve_ok t acct d o amt t' :
  spl_approve t acct d o amt = Ok t' ->
  tok_owner (t acct) = o /\ tok_delegate (t' acct) = Some d /\
  tok_delegated_amount (t' acct) = amt /\ tok_amount (t' acct) = tok_amount (t acct) /\
  (forall k, k <> acct -> t' k = t k).
Proof.
  unfold spl_approve. destruct (negb _) eqn:E; [discriminate|].
  apply negb_false_iff, Z.eqb_eq in E.
  intros H; injection H as <-. unfold upd1. rewrite Z.eqb_refl.
  repeat split; auto.
  intros k Hk. rewrite (proj2 (Z.eqb_neq k acct) Hk). reflexivity.
Qed.

(** X11.  Only the subscription's user can pause, resume, cancel, close it
    or update its limits: the instruction signed by anyone else fails with
    UnauthorizedUser and changes nothing. *)
Theorem subscription_user_only (env : Env) (ix : Instruction) (w : World)
  (u m : Pubkey) (s : Subscription) (Hs : subs w u m = Some s)
  (Hne : user s <> signer env)
  (Hix : ix = PauseSubscription u m \/ ix = ResumeSubscription u m \/
         ix = CancelSubscription u m \/ ix = CloseSubscription u m \/
         exists mx cap, ix = UpdateLimits u m mx cap) :
  run_instruction env ix w = (w, Err (rerr Recurring.UnauthorizedUser)).
Proof.
  assert (E : (user s =? signer env) = false) by (apply Z.eqb_neq; exact Hne).
  destruct Hix as [-> | [-> | [-> | [-> | [mx [cap ->]]]]]];
    unfold run_instruction, handler, pause_subscription, resume_subscription,
      cancel_subscription, close_subscription, update_limits, load_own_sub,
      load_sub, bind, require, throw, ret;
    rewrite Hs, E; reflexivity.
Qed.

Lemma subscription_user_only_witness :
  run_instruction (env_at 2000 5) (PauseSubscription 1 2) c2_world
  = (c2_world, Err (rerr Recurring.UnauthorizedUser)).
Proof.
  destruct (subs c2_world 1 2) as [s|] eqn:Hs; [|vm_compute in Hs; discriminate Hs].
  pose proof Hs as Es. vm_compute in Es. injection Es as <-.
  exact (subscription_user_only (env_at 2000 5) (PauseSubscription 1 2) c2_world 1 2 _
           Hs ltac:(simpl; lia) (or_introl eq_refl)).
Defined.

(** X12.  Pausing and then resuming a subscription changes nothing but its
    next_payment, which becomes the resume time plus frequency_seconds
    (the subscription was not paused before); token accounts and the
    platform are untouched. *)
Theorem pause_resume_round_trip (env1 env2 : Env) (u m : Pubkey) (w w1 w2 : World)
  (s : Subscription) (Hs : subs w u m = Some s)
  (H1 : run_instruction env1 (PauseSubscription u m) w = (w1, Ok tt))
  (H2 : run_instruction env2 (ResumeSubscription u m) w1 = (w2, Ok tt)) :
  is_paused s = false /\
  subs w2 u m = Some (set_next_payment s (now env2 + frequency_seconds s)) /\
  tokens w2 = tokens w /\ platform w2 = platform w.
Proof.
  apply run_ok in H1, H2.
  destruct w as [pl sb tk rg mc rv]; simpl in Hs.
  exec_handler H1.
  all: repeat match goal with Hx : Some _ = Some _ |- _ => injection Hx as Hx; subst end.
  all: injection H1 as <-; facts.
  all: exec_handler H2.
  all: match goal with Hx : upd2 _ _ _ _ _ _ = Some _ |- _ => revert Hx end;
    unfold upd2; rewrite !Z.eqb_refl; intros Hx; injection Hx as <-.
  all: injection H2 as <-; facts; simpl in *.
  all: unfold upd2; rewrite !Z.eqb_refl.
  all: repeat split; auto.
  all: destruct s; simpl in *; subst; reflexivity.
Qed.

Lemma pause_resume_round_trip_witness :
  exists s', subs (fst (run_instruction (env_at 3000 1) (ResumeSubscription 1 2)
                     (fst (run_instruction (env_at 2000 1) (PauseSubscription 1 2)
                             c2_world)))) 1 2 = Some s' /\ next_payment s' = 6600.
Proof.
  destruct (subs c2_world 1 2) as [s|] eqn:Hs; [|vm_compute in Hs; discriminate Hs].
  pose proof Hs as Es. vm_compute in Es. injection Es as <-.
  assert (Hr1 : snd (run_instruction (env_at 2000 1) (PauseSubscription 1 2) c2_world)
                = Ok tt) by (vm_compute; reflexivity).
  assert (Hr2 : snd (run_instruction (env_at 3000 1) (ResumeSubscription 1 2)
                  (fst (run_instruction (env_at 2000 1) (PauseSubscription 1 2) c2_world)))
                = Ok tt) by (vm_compute; reflexivity).
  destruct (run_instruction (env_at 2000 1) (PauseSubscription 1 2) c2_world)
    as [w1 r1] eqn:E1; simpl in Hr1, Hr2 |- *; subst r1.
  destruct (run_instruction (env_at 3000 1) (ResumeSubscription 1 2) w1)
    as [w2 r2] eqn:E2; simpl in Hr2 |- *; subst r2.
  eexists; split;
    [exact (proj1 (proj2 (pause_resume_round_trip (env_at 2000 1) (env_at 3000 1) 1 2
                            c2_world w1 w2 _ Hs E1 E2))) | reflexivity].
Defined.

Lemma cancel_success env u m w w' s :
  subs w u m = Some s -> handler env (CancelSubscription u m) w = (w', Ok tt) ->
  tok_delegate (tokens w' (user_token_account s)) = None /\
  tok_delegated_amount (tokens w' (user_token_account s)) = 0 /\
  subs w' u m = Some (set_flags s false false).
Proof.
  intros Hs H. destruct w as [pl sb tk rg mc rv]; simpl in Hs.
  exec_handler H.
  all: repeat match goal with Hx : Some _ = Some _ |- _ => injection Hx as Hx; subst end.
  all: injection H as <-; simpl.
  all: match goal with Hx : spl_revoke _ _ _ = Ok _ |- _ =>
         apply spl_revoke_ok in Hx as [_ [R1 [R2 _]]] end.
  all: unfold upd2; rewrite !Z.eqb_refl; auto.
Qed.

(** X13.  Cancelling a subscription revokes the subscription's delegation
    on the user's token account (no delegate, allowance 0) and marks it
    inactive and not paused; from then on every execute_payment of it
    fails and changes nothing. *)
Theorem cancel_stops_payments (env : Env) (u m : Pubkey) (w w' : World)
  (s : Subscription) (Hs : subs w u m = Some s)
  (H : run_instruction env (CancelSubscription u m) w = (w', Ok tt)) :
  tok_delegate (tokens w' (user_token_account s)) = None /\
  tok_delegated_amount (tokens w' (user_token_account s)) = 0 /\
  subs w' u m = Some (set_flags s false false) /\
  (forall env' fa, exists e, run_instruction env' (ExecutePayment u m fa) w' = (w', Err e)).
Proof.
  apply run_ok in H.
  destruct (cancel_success env u m w w' s Hs H) as [H1 [H2 H3]].
  split; [exact H1|]. split; [exact H2|]. split; [exact H3|].
  intros env' fa.
  destruct (run_instruction env' (ExecutePayment u m fa) w') as [w2 r] eqn:E.
  apply run_instruction_cases in E as [[E [[] ->]] | [-> [e ->]]]; [|eauto].
  destruct (execute_payment_success env' u m fa w' w2 _ H3 E)
    as [_ [_ [_ [Hact _]]]].
  discriminate Hact.
Qed.

Lemma cancel_stops_payments_witness :
  exists e, run_instruction (env_at 9000 9) (ExecutePayment 1 2 30)
              (fst (run_instruction (env_at 2000 1) (CancelSubscription 1 2) c2_world))
            = (fst (run_instruction (env_at 2000 1) (CancelSubscription 1 2) c2_world),
               Err e).
Proof.
  destruct (subs c2_world 1 2) as [s|] eqn:Hs; [|vm_compute in Hs; discriminate Hs].
  assert (Hr : snd (run_instruction (env_at 2000 1) (CancelSubscription 1 2) c2_world)
               = Ok tt) by (vm_compute; reflexivity).
  destruct (run_instruction (env_at 2000 1) (CancelSubscription 1 2) c2_world)
    as [w' r] eqn:E; simpl in Hr |- *; subst r.
  exact (proj2 (proj2 (proj2 (cancel_stops_payments (env_at 2000 1) 1 2 c2_world w' s
                                Hs E))) (env_at 9000 9) 30).
Defined.

(** X14.  close_subscription succeeds only on an inactive subscription; it
    deletes that subscription and leaves every other subscription, the
    token accounts and the platform as they were. *)
Theorem close_only_inactive (env : Env) (u m : Pubkey) (w w' : World)
  (s : Subscription) (Hs : subs w u m = Some s)
  (H : run_instruction env (CloseSubscription u m) w = (w', Ok tt)) :
  is_active s = false /\ subs w' u m = None /\
  (forall x y, x <> u \/ y <> m -> subs w' x y = subs w x y) /\
  tokens w' = tokens w /\ platform w' = platform w.
Proof.
  apply run_ok in H. destruct w as [pl sb tk rg mc rv]; simpl in Hs.
  exec_handler H.
  all: repeat match goal with Hx : Some _ = Some _ |- _ => injection Hx as Hx; subst end.
  all: injection H as <-; facts; simpl.
  split; [assumption|]. unfold upd2. rewrite !Z.eqb_refl. split; [reflexivity|].
  split; [|split; reflexivity].
  intros x y Hxy. destruct (x =? u) eqn:E1, (y =? m) eqn:E2; simpl; try reflexivity.
  apply Z.eqb_eq in E1, E2. destruct Hxy; contradiction.
Qed.

Lemma close_only_inactive_witness :
  subs (fst (run_instruction (env_at 3000 1) (CloseSubscription 1 2)
              (fst (run_instruction (env_at 2000 1) (CancelSubscription 1 2) c2_world))))
    1 2 = None.
Proof.
  assert (Hr1 : snd (run_instruction (env_at 2000 1) (CancelSubscription 1 2) c2_world)
                = Ok tt) by (vm_compute; reflexivity).
  assert (Hr2 : snd (run_instruction (env_at 3000 1) (CloseSubscription 1 2)
                  (fst (run_instruction (env_at 2000 1) (CancelSubscription 1 2) c2_world)))
                = Ok tt) by (vm_compute; reflexivity).
  assert (Hs1 : subs (fst (run_instruction (env_at 2000 1) (CancelSubscription 1 2)
                             c2_world)) 1 2 <> None) by (vm_compute; discriminate).
  destruct (run_instruction (env_at 2000 1) (CancelSubscription 1 2) c2_world)
    as [w1 r1] eqn:E1; simpl in Hr1, Hr2, Hs1 |- *; subst r1.
  destruct (subs w1 1 2) as [s|] eqn:Hs; [|contradiction].
  destruct (run_instruction (env_at 3000 1) (CloseSubscription 1 2) w1)
    as [w2 r2] eqn:E2; simpl in Hr2 |- *; subst r2.
  exact (proj1 (proj2 (close_only_inactive (env_at 3000 1) 1 2 w1 w2 s Hs E2))).
Defined.

(** X15.  A successful update_limits with a new lifetime cap requires the
    cap to be at least total_paid (and a new max_per_transaction to be at
    least amount) and stores both new limits.  When the cap grows, the
    subscription is re-approved as delegate of the user's token account
    with the new cap as allowance; otherwise no token account changes, so
    a lowered cap leaves the earlier, larger allowance in place. *)
Theorem update_limits_allowance (env : Env) (u m : Pubkey) (mx : option Z) (cap : Z)
  (w w' : World) (s : Subscription) (Hs : subs w u m = Some s)
  (H : run_instruction env (UpdateLimits u m mx (Some cap)) w = (w', Ok tt)) :
  total_paid s <= cap /\ (forall x, mx = Some x -> amount s <= x) /\
  subs w' u m = Some (set_lifetime_cap (match mx with
                                        | Some x => set_max_per_transaction s x
                                        | None => s
                                        end) cap) /\
  (lifetime_cap s < cap ->
   tok_delegate (tokens w' (user_token_account s))
   = Some (SubscriptionPda (user s) (merchant s)) /\
   tok_delegated_amount (tokens w' (user_token_account s)) = cap) /\
  (cap <= lifetime_cap s -> tokens w' = tokens w).
Proof.
  apply run_ok in H. destruct w as [pl sb tk rg mc rv]; simpl in Hs.
  destruct mx as [x|]; exec_handler H.
  all: repeat match goal with Hx : Some _ = Some _ |- _ => injection Hx as Hx; subst end.
  all: injection H as <-; facts; simpl.
  all: try match goal with Hx : spl_approve _ _ _ _ _ = Ok _ |- _ =>
         apply spl_approve_ok in Hx as [_ [A1 [A2 _]]] end.
  all: unfold upd2; rewrite !Z.eqb_refl.
  all: split; [lia|].
  all: split; [intros y Hy; first [discriminate Hy | injection Hy as <-; lia]|].
  all: split; [reflexivity|]; split; intros; auto; lia.
Qed.

Lemma update_limits_allowance_witness :
  tokens (fst (run_instruction (env_at 2000 1) (UpdateLimits 1 2 None (Some 6000000))
                 c10_world)) = tokens c10_world.
Proof.
  destruct (subs c10_world 1 2) as [s|] eqn:Hs; [|vm_compute in Hs; discriminate Hs].
  pose proof Hs as Es. vm_compute in Es. injection Es as <-.
  assert (Hr : snd (run_instruction (env_at 2000 1) (UpdateLimits 1 2 None (Some 6000000))
                      c10_world) = Ok tt) by (vm_compute; reflexivity).
  destruct (run_instruction (env_at 2000 1) (UpdateLimits 1 2 None (Some 6000000)) c10_world)
    as [w' r] eqn:E; simpl in Hr |- *; subst r.
  exact (proj2 (proj2 (proj2 (proj2
    (update_limits_allowance (env_at 2000 1) 1 2 None 6000000 c10_world w' _ Hs E))))
    ltac:(simpl; unfold U64_MAX; lia)).
Defined.

(** X16.  Only the platform authority can pause or unpause the platform:
    emergency_pause and emergency_unpause signed by anyone else fail with
    UnauthorizedAdmin and change nothing. *)
Theorem emergency_authority_only (env : Env) (ix : Instruction) (w : World)
  (p : PlatformState) (Hp : platform w = Some p) (Hne : authority p <> signer env)
  (Hix : ix = EmergencyPause \/ ix = EmergencyUnpause) :
  run_instruction env ix w = (w, Err (rerr Recurring.UnauthorizedAdmin)).
Proof.
  assert (E : (authority p =? signer env) = false) by (apply Z.eqb_neq; exact Hne).
  destruct Hix as [-> | ->];
    unfold run_instruction, handler, emergency_pause_ix, emergency_unpause,
      load_admin_platform, load_platform, bind, require, throw, ret;
    rewrite Hp; simpl; rewrite E; reflexivity.
Qed.

Lemma emergency_authority_only_witness :
  run_instruction (env_at 6000 5) EmergencyPause c1_world
  = (c1_world, Err (rerr Recurring.UnauthorizedAdmin)).
Proof.
  destruct (platform c1_world) as [p|] eqn:Hp; [|vm_compute in Hp; discriminate Hp].
  pose proof Hp as Ep. vm_compute in Ep. injection Ep as <-.
  exact (emergency_authority_only (env_at 6000 5) EmergencyPause c1_world _ Hp
           ltac:(simpl; lia) (or_introl eq_refl)).
Defined.

Lemma create_success env mc uta mta a f mx cap n w w' :
  handler env (CreateSubscription mc uta mta a f mx cap n) w = (w', Ok tt) ->
  subs w (signer env) mc = None /\
  (exists p, platform w = Some p /\ emergency_pause p = false /\
     exists p', platform w' = Some p' /\
       total_subscriptions p' = total_subscriptions p + 1) /\
  tok_owner (tokens w uta) = signer env /\ tok_owner (tokens w mta) = mc /\
  MIN_FREQUENCY_SECONDS <= f <= MAX_FREQUENCY_SECONDS /\
  (1 <= String.length n <= MAX_MERCHANT_NAME_LEN)%nat /\ 0 < a <= mx /\ a <= cap /\
  subs w' (signer env) mc
  = Some {| user := signer env; merchant := mc; user_token_account := uta;
            merchant_token_account := mta; amount := a; original_amount := a;
            frequency_seconds := f; last_payment := 0; next_payment := now env + f;
            total_paid := 0; payment_count := 0; is_active := true; is_paused := false;
            max_per_transaction := mx; lifetime_cap := cap; merchant_name := n;
            created_at := now env |} /\
  tok_delegate (tokens w' uta) = Some (SubscriptionPda (signer env) mc) /\
  tok_delegated_amount (tokens w' uta) = cap /\
  (forall k, k <> uta -> tokens w' k = tokens w k).
Proof.
  intros H. destruct w as [pl sb tk rg mc0 rv].
  exec_handler H.
  all: injection H as <-; facts; simpl.
  all: match goal with Hx : spl_approve _ _ _ _ _ = Ok _ |- _ =>
         apply spl_approve_ok in Hx as [_ [A1 [A2 [_ A3]]]] end.
  all: match goal with Hx : Nat.eqb _ _ = false |- _ => apply Nat.eqb_neq in Hx end.
  all: match goal with Hx : Nat.leb _ _ = true |- _ => apply Nat.leb_le in Hx end.
  all: unfold upd2; rewrite !Z.eqb_refl.
  all: split; [assumption|].
  all: split; [eexists; split; [reflexivity|]; split; [assumption|];
               eexists; split; [reflexivity|]; reflexivity|].
  all: unfold MIN_FREQUENCY_SECONDS, MAX_FREQUENCY_SECONDS, MAX_MERCHANT_NAME_LEN in *.
  all: repeat split; auto; lia.
Qed.

(** X17.  create_subscription succeeds only when no subscription exists yet
    for (signer, merchant), the platform exists and is not in emergency
    pause, the user token account is owned by the signer and the merchant
    token account by the merchant, frequency_seconds lies in
    [3600, 31_536_000], the merchant name has 1 to 32 characters,
    0 < amount <= max_per_transaction and amount <= lifetime_cap. *)
Theorem create_subscription_validates (env : Env) (mc uta mta : Pubkey)
  (a f mx cap : Z) (n : string) (w w' : World)
  (H : run_instruction env (CreateSubscription mc uta mta a f mx cap n) w = (w', Ok tt)) :
  subs w (signer env) mc = None /\
  (exists p, platform w = Some p /\ emergency_pause p = false) /\
  tok_owner (tokens w uta) = signer env /\ tok_owner (tokens w mta) = mc /\
  3600 <= f <= 31536000 /\ (1 <= String.length n <= 32)%nat /\
  0 < a <= mx /\ a <= cap.
Proof.
  apply run_ok in H.
  destruct (create_success env mc uta mta a f mx cap n w w' H)
    as [H1 [[p [Hp [Hpause _]]] [H3 [H4 [H5 [H6 [H7 [H8 _]]]]]]]].
  unfold MIN_FREQUENCY_SECONDS, MAX_FREQUENCY_SECONDS, MAX_MERCHANT_NAME_LEN in *.
  repeat split; eauto; lia.
Qed.


Lemma create_subscription_validates_witness :
  (1 <= String.length "svc" <= 32)%nat.
Proof.
  assert (Hr : snd (run_instruction (env_at 1000 1)
                      (CreateSubscription 2 10 20 5000000 3600 5000000 U64_MAX "svc")
                      platform_world) = Ok tt) by (vm_compute; reflexivity).
  destruct (run_instruction (env_at 1000 1)
              (CreateSubscription 2 10 20 5000000 3600 5000000 U64_MAX "svc")
              platform_world) as [w' r] eqn:E; simpl in Hr; subst r.
  exact (proj1 (proj2 (proj2 (proj2 (proj2 (proj2
    (create_subscription_validates (env_at 1000 1) 2 10 20 5000000 3600 5000000 U64_MAX
       "svc" platform_world w' E))))))).
Defined.

(** X18.  A successful create_subscription stores, under (signer, merchant),
    an active, unpaused subscription with original_amount = amount,
    total_paid = 0, payment_count = 0, last_payment = 0, next_payment =
    now + frequency_seconds and created_at = now; it approves the
    subscription as delegate of the user token account with lifetime_cap as
    allowance, changes no other token account, and increases the platform's
    total_subscriptions by 1. *)
Theorem create_subscription_effects (env : Env) (mc uta mta : Pubkey)
  (a f mx cap : Z) (n : string) (w w' : World)
  (H : run_instruction env (CreateSubscription mc uta mta a f mx cap n) w = (w', Ok tt)) :
  subs w' (signer env) mc
  = Some {| user := signer env; merchant := mc; user_token_account := uta;
            merchant_token_account := mta; amount := a; original_amount := a;
            frequency_seconds := f; last_payment := 0; next_payment := now env + f;
            total_paid := 0; payment_count := 0; is_active := true; is_paused := false;
            max_per_transaction := mx; lifetime_cap := cap; merchant_name := n;
            created_at := now env |} /\
  tok_delegate (tokens w' uta) = Some (SubscriptionPda (signer env) mc) /\
  tok_delegated_amount (tokens w' uta) = cap /\
  (forall k, k <> uta -> tokens w' k = tokens w k) /\
  exists p p', platform w = Some p /\ platform w' = Some p' /\
    total_subscriptions p' = total_subscriptions p + 1.
Proof.
  apply run_ok in H.
  destruct (create_success env mc uta mta a f mx cap n w w' H)
    as [_ [[p [Hp [_ [p' [Hp' Hn]]]]] [_ [_ [_ [_ [_ [_ [H1 [H2 [H3 H4]]]]]]]]]]].
  repeat split; auto. exists p, p'. auto.
Qed.

Lemma create_subscription_effects_witness :
  tok_delegated_amount
    (tokens (fst (run_instruction (env_at 1000 1)
                    (CreateSubscription 2 10 20 5000000 3600 5000000 U64_MAX "svc")
                    platform_world)) 10) = U64_MAX.
Proof.
  assert (Hr : snd (run_instruction (env_at 1000 1)
                      (CreateSubscription 2 10 20 5000000 3600 5000000 U64_MAX "svc")
                      platform_world) = Ok tt) by (vm_compute; reflexivity).
  destruct (run_instruction (env_at 1000 1)
              (CreateSubscription 2 10 20 5000000 3600 5000000 U64_MAX "svc")
              platform_world) as [w' r] eqn:E; simpl in Hr |- *; subst r.
  exact (proj1 (proj2 (proj2
    (create_subscription_effects (env_at 1000 1) 2 10 20 5000000 3600 5000000 U64_MAX
       "svc" platform_world w' E)))).
Defined.

(** X19.  Once the registry exists, no instruction removes it or changes its
    authority or premium_badge_price, and neither total_merchants nor
    verified_merchants ever decreases. *)
Theorem registry_config_fixed (env : Env) (ix : Instruction) (w : World)
  (reg : RegistryState) (Hr : registry w = Some reg) :
  exists reg', registry (fst (run_instruction env ix w)) = Some reg' /\
    reg_authority reg' = reg_authority reg /\
    premium_badge_price reg' = premium_badge_price reg /\
    total_merchants reg <= total_merchants reg' /\
    verified_merchants reg <= verified_merchants reg'.
Proof.
  destruct (run_instruction env ix w) as [w' r] eqn:E.
  apply run_instruction_cases in E as [[H [a ->]] | [-> _]]; simpl.
  2: { exists reg; repeat split; try lia; exact Hr. }
  destruct w as [pl sb tk rg mc rv]; simpl in Hr; subst rg.
  destruct ix; exec_handler H; injection H as <-; facts; try congruence.
  all: eexists; split; [reflexivity|]; simpl; repeat split; lia.
Qed.

Lemma registry_config_fixed_witness :
  exists reg', registry (fst (run_instruction (env_at 1000 3)
                               (ApplyForVerification "Cafe" "https://cafe.example" "food")
                               c2_world)) = Some reg' /\
    premium_badge_price reg' = PREMIUM_BADGE_PRICE.
Proof.
  destruct (registry c2_world) as [reg|] eqn:Hr; [|vm_compute in Hr; discriminate Hr].
  pose proof Hr as Er. vm_compute in Er. injection Er as <-.
  destruct (registry_config_fixed (env_at 1000 3)
              (ApplyForVerification "Cafe" "https://cafe.example" "food") c2_world _ Hr)
    as [reg' [H1 [_ [H2 _]]]].
  exists reg'. split; [exact H1 | exact H2].
Defined.

(** X20.  apply_for_verification succeeds only when the signer has no
    merchant record yet, the registry exists, and the business name (1 to 64
    characters), webhook URL (1 to 128) and category (1 to 32) are valid.  It
    stores an Unverified record owned by the signer with community_score 0,
    zero counters, no premium badge and created_at = last_updated = now,
    and increases the registry's total_merchants by 1. *)
Theorem apply_for_verification_effects (env : Env) (bn url cat : string) (w w' : World)
  (H : run_instruction env (ApplyForVerification bn url cat) w = (w', Ok tt)) :
  merchants w (signer env) = None /\
  len_ok bn MAX_BUSINESS_NAME_LEN = true /\ len_ok url MAX_WEBHOOK_URL_LEN = true /\
  len_ok cat MAX_CATEGORY_LEN = true /\
  merchants w' (signer env)
  = Some {| owner := signer env; business_name := bn; webhook_url := url;
            category := cat; verification_tier := Unverified; community_score := 0;
            m_total_transactions := 0; total_volume := 0; failed_transactions := 0;
            premium_badge_active := false; premium_badge_expires := 0;
            m_created_at := now env; last_updated := now env |} /\
  exists reg reg', registry w = Some reg /\ registry w' = Some reg' /\
    total_merchants reg' = total_merchants reg + 1.
Proof.
  apply run_ok in H. destruct w as [pl sb tk rg mc rv].
  exec_handler H.
  all: injection H as <-; facts; simpl.
  all: unfold upd1; rewrite Z.eqb_refl.
  all: repeat split; auto.
  all: do 2 eexists; split; [reflexivity|]; split; [reflexivity|]; reflexivity.
Qed.

Lemma apply_for_verification_effects_witness :
  len_ok "Cafe" MAX_BUSINESS_NAME_LEN = true.
Proof.
  assert (Hr : snd (run_instruction (env_at 1000 3)
                      (ApplyForVerification "Cafe" "https://cafe.example" "food")
                      c2_world) = Ok tt) by (vm_compute; reflexivity).
  destruct (run_instruction (env_at 1000 3)
              (ApplyForVerification "Cafe" "https://cafe.example" "food") c2_world)
    as [w' r] eqn:E; simpl in Hr; subst r.
  exact (proj1 (proj2 (apply_for_verification_effects (env_at 1000 3) "Cafe"
                         "https://cafe.example" "food" c2_world w' E))).
Defined.

(** X21.  A successful approve_merchant was signed by the registry
    authority with a tier other than Community; it stores the merchant with
    the new tier and last_updated = now, and increases the registry's
    verified_merchants by 1 exactly when the merchant goes from Unverified to
    Verified (otherwise the count is unchanged). *)
Theorem approve_merchant_effects (env : Env) (o : Pubkey) (t : VerificationTier)
  (w w' : World) (mr : Merchant) (Hm : merchants w o = Some mr)
  (H : run_instruction env (ApproveMerchant o t) w = (w', Ok tt)) :
  t <> Community /\
  merchants w' o = Some (set_last_updated (set_tier mr t) (now env)) /\
  exists reg reg', registry w = Some reg /\ reg_authority reg = signer env /\
    registry w' = Some reg' /\
    verified_merchants reg'
    = verified_merchants reg
      + (if tier_eqb (verification_tier mr) Unverified && tier_eqb t Verified
         then 1 else 0).
Proof.
  apply run_ok in H. destruct w as [pl sb tk rg mc rv]; simpl in Hm.
  exec_handler H.
  all: repeat match goal with Hx : Some _ = Some _ |- _ => injection Hx as Hx; subst end.
  all: injection H as <-.
  all: match goal with Hx : (tier_eqb _ _ && tier_eqb _ _) = _ |- _ => rewrite Hx end.
  all: facts; simpl.
  all: match goal with Hx : tier_eqb _ Community = false |- _ =>
         apply tier_eqb_false in Hx end.
  all: unfold upd1; rewrite Z.eqb_refl.
  all: split; [assumption|]; split; [reflexivity|].
  all: do 2 eexists; repeat split; simpl; lia.
Qed.

Lemma approve_merchant_effects_witness :
  exists mr', merchants (fst (run_instruction (env_at 2000 7) (ApproveMerchant 2 Suspended)
                               c2_world)) 2 = Some mr' /\
              verification_tier mr' = Suspended.
Proof.
  destruct (merchants c2_world 2) as [mr|] eqn:Hm; [|vm_compute in Hm; discriminate Hm].
  assert (Hr : snd (run_instruction (env_at 2000 7) (ApproveMerchant 2 Suspended) c2_world)
               = Ok tt) by (vm_compute; reflexivity).
  destruct (run_instruction (env_at 2000 7) (ApproveMerchant 2 Suspended) c2_world)
    as [w' r] eqn:E; simpl in Hr |- *; subst r.
  eexists; split;
    [exact (proj1 (proj2 (approve_merchant_effects (env_at 2000 7) 2 Suspended c2_world w'
                            mr Hm E))) | reflexivity].
Defined.

(** X22.  Only the registry authority can approve or suspend a merchant:
    approve_merchant (whatever the tier) and suspend_merchant signed by
    anyone else fail with UnauthorizedAdmin and change nothing. *)
Theorem registry_admin_only (env : Env) (ix : Instruction) (w : World) (o : Pubkey)
  (mr : Merchant) (reg : RegistryState)
  (Hm : merchants w o = Some mr) (Hr : registry w = Some reg)
  (Hne : reg_authority reg <> signer env)
  (Hix : (exists t, ix = ApproveMerchant o t) \/ (exists reason, ix = SuspendMerchant o reason)) :
  run_instruction env ix w = (w, Err (gerr Registry.UnauthorizedAdmin)).
Proof.
  assert (E : (reg_authority reg =? signer env) = false) by (apply Z.eqb_neq; exact Hne).
  destruct Hix as [[t ->] | [reason ->]];
    unfold run_instruction, handler, approve_merchant, suspend_merchant,
      load_admin_merchant, load_merchant, load_registry, bind, require, throw, ret;
    rewrite Hm; simpl; rewrite Hr, E; reflexivity.
Qed.

Lemma registry_admin_only_witness :
  run_instruction (env_at 2000 5) (SuspendMerchant 2 "fraud") c2_world
  = (c2_world, Err (gerr Registry.UnauthorizedAdmin)).
Proof.
  destruct (merchants c2_world 2) as [mr|] eqn:Hm; [|vm_compute in Hm; discriminate Hm].
  destruct (registry c2_world) as [reg|] eqn:Hr; [|vm_compute in Hr; discriminate Hr].
  pose proof Hr as Er. vm_compute in Er. injection Er as <-.
  exact (registry_admin_only (env_at 2000 5) (SuspendMerchant 2 "fraud") c2_world 2 mr _
           Hm Hr ltac:(simpl; lia) (or_intror (ex_intro _ "fraud"%string eq_refl))).
Defined.

(** X23.  A successful subscribe_premium_badge is made by a merchant whose
    tier is Verified or Community; it moves exactly the registry's
    premium_badge_price from the given merchant token account to the fee
    account (when they differ), changes no other token account, and sets
    the badge active with expiry now + 30 days and last_updated = now. *)
Theorem premium_badge_effects (env : Env) (mta fa : Pubkey) (w w' : World)
  (mr : Merchant) (reg : RegistryState)
  (Hm : merchants w (signer env) = Some mr) (Hr : registry w = Some reg) (Hd : mta <> fa)
  (H : run_instruction env (SubscribePremiumBadge mta fa) w = (w', Ok tt)) :
  (verification_tier mr = Verified \/ verification_tier mr = Community) /\
  tok_amount (tokens w' mta) = tok_amount (tokens w mta) - premium_badge_price reg /\
  tok_amount (tokens w' fa) = tok_amount (tokens w fa) + premium_badge_price reg /\
  (forall k, k <> mta -> k <> fa -> tokens w' k = tokens w k) /\
  merchants w' (signer env)
  = Some (set_last_updated (set_premium_expires (set_premium mr true)
                              (now env + PREMIUM_BADGE_DURATION_DAYS * SECONDS_PER_DAY))
            (now env)).
Proof.
  apply run_ok in H. destruct w as [pl sb tk rg mc rv]; simpl in Hm, Hr; subst rg.
  exec_handler H.
  all: repeat match goal with Hx : Some _ = Some _ |- _ => injection Hx as Hx; subst end.
  all: injection H as <-; simpl.
  all: match goal with Hx : spl_transfer _ _ _ _ _ = Ok _ |- _ =>
         apply spl_transfer_ok in Hx as [T1 [T2 [T3 _]]]; [|exact Hd] end.
  all: match goal with Hx : (tier_eqb _ _ || tier_eqb _ _) = true |- _ =>
         apply orb_true_iff in Hx; destruct Hx as [Hx | Hx]; apply tier_eqb_true in Hx end.
  all: facts; unfold upd1; rewrite Z.eqb_refl.
  all: repeat split; auto.
Qed.


Lemma premium_badge_effects_witness :
  tok_amount (tokens (fst (run_instruction (env_at 2000 2) (SubscribePremiumBadge 20 40)
                             badge_world)) 40) = PREMIUM_BADGE_PRICE.
Proof.
  destruct (merchants badge_world 2) as [mr|] eqn:Hm; [|vm_compute in Hm; discriminate Hm].
  destruct (registry badge_world) as [reg|] eqn:Hr; [|vm_compute in Hr; discriminate Hr].
  pose proof Hr as Er. vm_compute in Er. injection Er as <-.
  assert (Hx : snd (run_instruction (env_at 2000 2) (SubscribePremiumBadge 20 40) badge_world)
               = Ok tt) by (vm_compute; reflexivity).
  destruct (run_instruction (env_at 2000 2) (SubscribePremiumBadge 20 40) badge_world)
    as [w' r] eqn:E; simpl in Hx |- *; subst r.
  rewrite (proj1 (proj2 (proj2 (premium_badge_effects (env_at 2000 2) 20 40 badge_world w'
                                  mr _ Hm Hr ltac:(lia) E)))).
  reflexivity.
Defined.

(** X24.  record_transaction never succeeds unless the instruction before
    it in the transaction (index current_index - 1 of the instructions
    sysvar, with current_index > 0) belongs to the lutrii-recurring
    program. *)
Theorem record_transaction_cpi_gate (env : Env) (o : Pubkey) (a : Z) (ok : bool)
  (w w' : World)
  (H : run_instruction env (RecordTransaction o a ok) w = (w', Ok tt)) :
  0 < current_index env /\
  nth_error (tx_program_ids env) (Z.to_nat (current_index env - 1))
  = Some lutrii_recurring_ID.
Proof.
  apply run_ok in H. exec_handler H.
  all: facts; split; auto.
Qed.

Lemma record_transaction_cpi_gate_witness :
  0 < current_index (env_after_recurring 3000 9).
Proof.
  assert (Hr : snd (run_instruction (env_after_recurring 3000 9)
                      (RecordTransaction 2 500 true) c2_world) = Ok tt)
    by (vm_compute; reflexivity).
  destruct (run_instruction (env_after_recurring 3000 9) (RecordTransaction 2 500 true)
              c2_world) as [w' r] eqn:E; simpl in Hr; subst r.
  exact (proj1 (record_transaction_cpi_gate (env_after_recurring 3000 9) 2 500 true
                  c2_world w' E)).
Defined.

(** X25.  A successful record_transaction updates the merchant's counters:
    a successful transaction adds 1 to total_transactions, adds amount to
    total_volume and 10 to community_score; a failed one adds 1 to
    failed_transactions and subtracts 25 from community_score (saturating
    at i32::MIN), leaving total_transactions and total_volume unchanged.
    In both cases last_updated becomes now. *)
Theorem record_transaction_counts (env : Env) (o : Pubkey) (a : Z) (ok : bool)
  (w w' : World) (mr : Merchant) (Hm : merchants w o = Some mr)
  (H : run_instruction env (RecordTransaction o a ok) w = (w', Ok tt)) :
  exists mr', merchants w' o = Some mr' /\ last_updated mr' = now env /\
    (ok = true ->
     m_total_transactions mr' = m_total_transactions mr + 1 /\
     total_volume mr' = total_volume mr + a /\
     failed_transactions mr' = failed_transactions mr /\
     community_score mr' = community_score mr + 10) /\
    (ok = false ->
     m_total_transactions mr' = m_total_transactions mr /\
     total_volume mr' = total_volume mr /\
     failed_transactions mr' = failed_transactions mr + 1 /\
     community_score mr' = i32_saturating_sub (community_score mr) 25).
Proof.
  apply run_ok in H. destruct w as [pl sb tk rg mc rv]; simpl in Hm.
  exec_handler H.
  all: repeat match goal with Hx : Some _ = Some _ |- _ => injection Hx as Hx; subst end.
  all: injection H as <-; facts; simpl.
  all: unfold upd1; rewrite Z.eqb_refl.
  all: eexists; split; [reflexivity|]; simpl.
  all: split; [reflexivity|]; split; intros Hok; try discriminate Hok; simpl.
  all: repeat split; reflexivity.
Qed.

Lemma record_transaction_counts_witness :
  exists mr', merchants (fst (run_instruction (env_after_recurring 3000 9)
                               (RecordTransaction 2 500 false) c2_world)) 2 = Some mr' /\
    failed_transactions mr' = 1.
Proof.
  destruct (merchants c2_world 2) as [mr|] eqn:Hm; [|vm_compute in Hm; discriminate Hm].
  pose proof Hm as Em. vm_compute in Em. injection Em as <-.
  assert (Hr : snd (run_instruction (env_after_recurring 3000 9)
                      (RecordTransaction 2 500 false) c2_world) = Ok tt)
    by (vm_compute; reflexivity).
  destruct (run_instruction (env_after_recurring 3000 9) (RecordTransaction 2 500 false)
              c2_world) as [w' r] eqn:E; simpl in Hr |- *; subst r.
  destruct (record_transaction_counts (env_after_recurring 3000 9) 2 500 false c2_world w'
              _ Hm E) as [mr' [H1 [_ [_ H2]]]].
  exists mr'. split; [exact H1|]. rewrite (proj1 (proj2 (proj2 (H2 eq_refl)))). reflexivity.
Defined.

(** X26.  record_transaction deactivates an expired premium badge: when the
    merchant's premium_badge_expires is at or before now, the record stored
    by a successful record_transaction has premium_badge_active = false. *)
Theorem record_transaction_expires_badge (env : Env) (o : Pubkey) (a : Z) (ok : bool)
  (w w' : World) (mr : Merchant) (Hm : merchants w o = Some mr)
  (Hexp : premium_badge_expires mr <= now env)
  (H : run_instruction env (RecordTransaction o a ok) w = (w', Ok tt)) :
  exists mr', merchants w' o = Some mr' /\ premium_badge_active mr' = false.
Proof.
  apply run_ok in H. destruct w as [pl sb tk rg mc rv]; simpl in Hm.
  exec_handler H.
  all: repeat match goal with Hx : Some _ = Some _ |- _ => injection Hx as Hx; subst end.
  all: injection H as <-; simpl.
  all: unfold upd1; rewrite Z.eqb_refl.
  all: eexists; split; [reflexivity|]; simpl.
  all: try reflexivity.
  all: match goal with
       | Hx : (premium_badge_active _ && (_ <=? _)) = false |- _ =>
           apply andb_false_iff in Hx; destruct Hx as [Hx | Hx];
           [exact Hx | apply Z.leb_gt in Hx; lia]
       end.
Qed.


Lemma record_transaction_expires_badge_witness :
  exists mr', merchants (fst (run_instruction (env_after_recurring 3000 9)
                               (RecordTransaction 2 500 true) expired_badge_world)) 2
              = Some mr' /\ premium_badge_active mr' = false.
Proof.
  destruct (merchants expired_badge_world 2) as [mr|] eqn:Hm;
    [|vm_compute in Hm; discriminate Hm].
  pose proof Hm as Em. vm_compute in Em. injection Em as <-.
  assert (Hr : snd (run_instruction (env_after_recurring 3000 9)
                      (RecordTransaction 2 500 true) expired_badge_world) = Ok tt)
    by (vm_compute; reflexivity).
  destruct (run_instruction (env_after_recurring 3000 9) (RecordTransaction 2 500 true)
              expired_badge_world) as [w' r] eqn:E; simpl in Hr |- *; subst r.
  exact (record_transaction_expires_badge (env_after_recurring 3000 9) 2 500 true
           expired_badge_world w' _ Hm ltac:(simpl; lia) E).
Defined.

(** X27.  A suspension is lifted only by the registry authority: if a
    merchant record is Suspended before an instruction and not Suspended
    after it, the instruction is approve_merchant for that merchant, signed
    by the registry authority.  record_transaction, submit_review,
    subscribe_premium_badge and update_merchant_info never lift it. *)
Theorem suspension_lifted_by_admin_only (env : Env) (ix : Instruction) (w : World)
  (o : Pubkey) (mr mr' : Merchant)
  (Hm : merchants w o = Some mr) (Hsus : verification_tier mr = Suspended)
  (Hm' : merchants (fst (run_instruction env ix w)) o = Some mr')
  (Hns : verification_tier mr' <> Suspended) :
  exists t reg, ix = ApproveMerchant o t /\ registry w = Some reg /\
    reg_authority reg = signer env.
Proof.
  destruct (run_instruction env ix w) as [w' r] eqn:E.
  apply run_instruction_cases in E as [[H [x ->]] | [-> _]]; simpl in Hm'.
  2: { rewrite Hm in Hm'. injection Hm' as <-. contradiction. }
  destruct w as [pl sb tk rg mc rv]; simpl in Hm |- *.
  destruct ix; exec_handler H; injection H as <-; simpl in Hm'; split_upd Hm';
    facts; merchant_facts; simpl in *; try congruence.
  all: eauto.
Qed.


Lemma suspension_lifted_by_admin_only_witness :
  exists t reg, ApproveMerchant 2 Verified = ApproveMerchant 2 t /\
    registry suspended_world = Some reg /\ reg_authority reg = 7.
Proof.
  destruct (merchants suspended_world 2) as [mr|] eqn:Hm;
    [|vm_compute in Hm; discriminate Hm].
  pose proof Hm as Em. vm_compute in Em. injection Em as <-.
  destruct (merchants (fst (run_instruction (env_at 3000 7) (ApproveMerchant 2 Verified)
                              suspended_world)) 2) as [mr'|] eqn:Hm';
    [|vm_compute in Hm'; discriminate Hm'].
  pose proof Hm' as Em'. vm_compute in Em'. injection Em' as <-.
  exact (suspension_lifted_by_admin_only (env_at 3000 7) (ApproveMerchant 2 Verified)
           suspended_world 2 _ _ Hm eq_refl Hm' ltac:(discriminate)).
Defined.

(** X28.  update_merchant_info changes only the merchant's business name,
    webhook URL and category (each to the new value when one is given) and
    last_updated: the verification tier, community score, transaction
    counters, volume, premium badge and creation time are kept. *)
Theorem update_merchant_info_keeps_standing (env : Env) (bn url cat : option string)
  (w w' : World) (mr : Merchant) (Hm : merchants w (signer env) = Some mr)
  (H : run_instruction env (UpdateMerchantInfo bn url cat) w = (w', Ok tt)) :
  exists mr', merchants w' (signer env) = Some mr' /\
    verification_tier mr' = verification_tier mr /\
    community_score mr' = community_score mr /\
    m_total_transactions mr' = m_total_transactions mr /\
    total_volume mr' = total_volume mr /\
    failed_transactions mr' = failed_transactions mr /\
    premium_badge_active mr' = premium_badge_active mr /\
    premium_badge_expires mr' = premium_badge_expires mr /\
    m_created_at mr' = m_created_at mr /\
    business_name mr' = match bn with Some n => n | None => business_name mr end /\
    webhook_url mr' = match url with Some n => n | None => webhook_url mr end /\
    category mr' = match cat with Some n => n | None => category mr end /\
    last_updated mr' = now env.
Proof.
  apply run_ok in H. destruct w as [pl sb tk rg mc rv]; simpl in Hm.
  destruct bn, url, cat; exec_handler H.
  all: repeat match goal with Hx : Some _ = Some _ |- _ => injection Hx as Hx; subst end.
  all: injection H as <-; simpl.
  all: unfold upd1; rewrite Z.eqb_refl.
  all: eexists; split; [reflexivity|]; simpl.
  all: repeat split.
Qed.

Lemma update_merchant_info_keeps_standing_witness :
  exists mr', merchants (fst (run_instruction (env_at 3000 2)
                               (UpdateMerchantInfo (Some "Shop Two"%string) None None)
                               c2_world)) 2 = Some mr' /\
    verification_tier mr' = Verified.
Proof.
  destruct (merchants c2_world 2) as [mr|] eqn:Hm; [|vm_compute in Hm; discriminate Hm].
  pose proof Hm as Em. vm_compute in Em. injection Em as <-.
  assert (Hr : snd (run_instruction (env_at 3000 2)
                      (UpdateMerchantInfo (Some "Shop Two"%string) None None) c2_world)
               = Ok tt) by (vm_compute; reflexivity).
  destruct (run_instruction (env_at 3000 2)
              (UpdateMerchantInfo (Some "Shop Two"%string) None None) c2_world)
    as [w' r] eqn:E; simpl in Hr |- *; subst r.
  destruct (update_merchant_info_keeps_standing (env_at 3000 2) (Some "Shop Two"%string)
              None None c2_world w' _ Hm E) as [mr' [H1 [H2 _]]].
  exists mr'. split; [exact H1 | exact H2].
Defined.

Lemma reachable_registry_keys_witness :
  exists mr, merchants c2_world 2 = Some mr /\ owner mr = 2.
Proof.
  assert (Hr : reachable c2_world)
    by (apply reachable_run_all; apply reachable_fresh; exact world0_fresh).
  destruct (merchants c2_world 2) as [mr|] eqn:Hm; [|vm_compute in Hm; discriminate Hm].
  exists mr. split; [reflexivity|].
  exact (proj1 (reachable_registry_keys c2_world Hr) 2 mr Hm).
Defined.

(** X29.  The platform fee grows with the amount: for the same basis points
    (non-negative, as a u16 is) and the same min_fee and max_fee, a larger
    amount never gets a smaller fee from calculate_fee. *)
Theorem calculate_fee_monotone (a1 a2 bp mn mx f1 f2 : Z)
  (Hbp : 0 <= bp) (Hle : a1 <= a2)
  (H1 : calculate_fee a1 bp mn mx = Ok f1) (H2 : calculate_fee a2 bp mn mx = Ok f2) :
  f1 <= f2.
Proof.
  unfold calculate_fee, u128_checked_mul, u_checked_div, u64_try_from in *.
  destruct (checked 0 U128_MAX (a1 * bp)) as [p1|] eqn:E1; [|discriminate H1].
  destruct (checked 0 U128_MAX (a2 * bp)) as [p2|] eqn:E2; [|discriminate H2].
  apply checked_Some in E1 as [-> _]. apply checked_Some in E2 as [-> _].
  simpl in H1, H2.
  destruct (checked 0 U64_MAX (a1 * bp / BASIS_POINTS_DIVISOR)) as [q1|] eqn:F1;
    [|discriminate H1].
  destruct (checked 0 U64_MAX (a2 * bp / BASIS_POINTS_DIVISOR)) as [q2|] eqn:F2;
    [|discriminate H2].
  apply checked_Some in F1 as [-> _]. apply checked_Some in F2 as [-> _].
  injection H1 as <-. injection H2 as <-.
  assert (a1 * bp / BASIS_POINTS_DIVISOR <= a2 * bp / BASIS_POINTS_DIVISOR).
  { apply Z.div_le_mono; [unfold BASIS_POINTS_DIVISOR; lia|].
    apply Z.mul_le_mono_nonneg_r; assumption. }
  lia.
Qed.

Lemma calculate_fee_monotone_witness :
  exists f1 f2, calculate_fee 5000000 1 10000 500000 = Ok f1 /\
    calculate_fee 200000000 1 10000 500000 = Ok f2 /\ f1 <= f2.
Proof.
  destruct (calculate_fee 5000000 1 10000 500000) as [f1|e1] eqn:H1;
    [|vm_compute in H1; discriminate H1].
  destruct (calculate_fee 200000000 1 10000 500000) as [f2|e2] eqn:H2;
    [|vm_compute in H2; discriminate H2].
  exists f1, f2. split; [reflexivity|]. split; [reflexivity|].
  exact (calculate_fee_monotone 5000000 200000000 1 10000 500000 f1 f2
           ltac:(lia) ltac:(lia) H1 H2).
Defined.

(** X30.  submit_review never succeeds and never changes anything: its
    subscription account is an Account<lutrii_recurring::Subscription> whose
    expected owner is the registry program, while every subscription
    account is owned by lutrii-recurring.  It fails with
    AccountNotInitialized when the merchant record or the reviewer's
    subscription is missing, and with AccountOwnedByWrongProgram when both
    exist. *)
Theorem submit_review_never_succeeds (env : Env) (o : Pubkey) (rt : Z) (c : string)
  (w : World) :
  exists e, run_instruction env (SubmitReview o rt c) w = (w, Err e) /\
    (e = AnchorErr AccountNotInitialized \/ e = AnchorErr AccountOwnedByWrongProgram) /\
    (merchants w o <> None -> subs w (signer env) o <> None ->
     e = AnchorErr AccountOwnedByWrongProgram).
Proof.
  unfold run_instruction.
  destruct (handler env (SubmitReview o rt c) w) as [w1 [x|e]] eqn:H;
    destruct w as [pl sb tk rg mc rv]; exec_handler H.
  all: injection H as <- <-; eexists; (split; [reflexivity|]).
  all: split; auto; intros H1 H2; simpl in H1, H2; congruence.
Qed.

Lemma submit_review_never_succeeds_witness :
  run_instruction (env_at 605801 1) (SubmitReview 2 5 "great") c4_world
  = (c4_world, Err (AnchorErr AccountOwnedByWrongProgram)).
Proof.
  destruct (submit_review_never_succeeds (env_at 605801 1) 2 5 "great" c4_world)
    as [e [He [_ Hw]]].
  rewrite He, Hw; [reflexivity| |].
  - intro Hn. vm_compute in Hn. discriminate Hn.
  - intro Hn. vm_compute in Hn. discriminate Hn.
Defined.
